(** * Proximity analysis of [social_distance_posenet.py]

    A shallow embedding of the helper functions [find_keypoint],
    [person_center], [person_height], [distance] and [analyze_poses], and the
    properties of them that the specification states.

    The functions are written over a class [Float] of the operations the
    script applies to Python floats, and the properties are proved from the
    few laws of [<], [==] and of the mean that they use ([OrderLaws],
    [MeanLaw]).  The instance [binary64] is IEEE double precision, the
    arithmetic of CPython's [float], on Rocq's primitive floats; the laws
    are proved for it from the specification of the primitive operations.
    [math.hypot] is a function of the C library: the instance takes it as a
    parameter.  Exceptions are values of [result]; the text written by
    [print] is a list of [line]s.  The script around these functions, its
    two modes and the frame loop, is modelled by the calls it makes on the
    libraries and by how it ends. *)

From Stdlib Require Import String.
From Stdlib Require Import List ZArith Bool Arith Lia.
From Stdlib Require Import Floats.
From Stdlib Require Import Permutation.
Import ListNotations.

Set Implicit Arguments.

(** ** Arithmetic of Python floats *)

Class Float : Type := {
  num : Type;
  f0 : num;                          (* 0.0, also what the int 0 compares as *)
  f1 : num;                          (* 1.0 *)
  f2 : num;                          (* 2.0 *)
  fadd : num -> num -> num;          (* a + b *)
  fsub : num -> num -> num;          (* a - b *)
  fdiv : num -> num -> num;          (* a / b, for b that is not zero *)
  flt : num -> num -> bool;          (* a < b *)
  feq : num -> num -> bool;          (* a == b *)
  float_of_nat : nat -> num;         (* float(n) of a non-negative int *)
  hypot : num -> num -> num          (* math.hypot(a, b) *)
}.

(** [a > b] is [b < a]; [a <= b] is [a < b or a == b]. *)
Definition fgt `{Float} (a b : num) : bool := flt b a.
Definition fle `{Float} (a b : num) : bool := flt a b || feq a b.

(** ** Exceptions *)

(** A Python exception, identified by the name of its class. *)
Definition exn := string.
Definition ZeroDivisionError : exn := "ZeroDivisionError"%string.
Definition ValueError : exn := "ValueError"%string.
Definition IndexError : exn := "IndexError"%string.
(** The error class the specification names; the script defines no such
    class and raises it nowhere. *)
Definition InvalidPoseError : exn := "InvalidPoseError"%string.

Inductive result (A : Type) : Type :=
| Ok (a : A)
| Raise (e : exn).
Arguments Ok {A} a.
Arguments Raise {A} e.

Definition rbind {A B} (m : result A) (k : A -> result B) : result B :=
  match m with
  | Ok a => k a
  | Raise e => Raise e
  end.

Notation "x <~ m ;; k" := (rbind m (fun x => k))
  (at level 61, m at next level, right associativity).

(** ** Data model and helpers, over a fixed arithmetic *)

Section Analyzer.
Context `{F : Float}.

Record Keypoint : Type := { ID : Z; x : num; y : num }.
Record Pose : Type := { Keypoints : list Keypoint }.

Definition point : Type := (num * num)%type.

Definition LEFT_HIP_ID : Z := 11.
Definition RIGHT_HIP_ID : Z := 12.

(** [for kp in pose.Keypoints: if kp.ID == kp_id: return kp] *)
Fixpoint find_in (kps : list Keypoint) (kp_id : Z) : option Keypoint :=
  match kps with
  | [] => None
  | kp :: rest => if (ID kp =? kp_id)%Z then Some kp else find_in rest kp_id
  end.

Definition find_keypoint (pose : Pose) (kp_id : Z) : option Keypoint :=
  find_in (Keypoints pose) kp_id.

(** [sum(xs)]: from 0, left to right. *)
Definition sum (xs : list num) : num := fold_left fadd xs f0.

(** [a / len(xs)]: Python raises when the divisor is zero, which for a
    length is when the list is empty. *)
Definition truediv_len (a : num) (n : nat) : result num :=
  if (n =? 0)%nat then Raise ZeroDivisionError
  else Ok (fdiv a (float_of_nat n)).

(** [a / b] for two floats: raises when [b == 0]. *)
Definition truediv (a b : num) : result num :=
  if feq b f0 then Raise ZeroDivisionError else Ok (fdiv a b).

(** [(a + b) / 2.0]; the divisor is a non-zero literal. *)
Definition half_sum (a b : num) : num := fdiv (fadd a b) f2.

Definition person_center (pose : Pose) : result point :=
  let lh := find_keypoint pose LEFT_HIP_ID in
  let rh := find_keypoint pose RIGHT_HIP_ID in
  match lh, rh with
  | Some lh, Some rh =>
      let cx := half_sum (x lh) (x rh) in
      let cy := half_sum (y lh) (y rh) in
      Ok (cx, cy)
  | _, _ =>
      let xs := map x (Keypoints pose) in
      let ys := map y (Keypoints pose) in
      cx <~ truediv_len (sum xs) (length xs) ;;
      cy <~ truediv_len (sum ys) (length ys) ;;
      Ok (cx, cy)
  end.

(** The builtins [max] and [min] on a list: [ValueError] on the empty list,
    otherwise the first item is kept until a later one is strictly greater
    (resp. strictly smaller). *)
Definition py_max (l : list num) : result num :=
  match l with
  | [] => Raise ValueError
  | v :: rest => Ok (fold_left (fun m item => if fgt item m then item else m) rest v)
  end.

Definition py_min (l : list num) : result num :=
  match l with
  | [] => Raise ValueError
  | v :: rest => Ok (fold_left (fun m item => if flt item m then item else m) rest v)
  end.

Definition person_height (pose : Pose) : result num :=
  let ys := map y (Keypoints pose) in
  hi <~ py_max ys ;;
  lo <~ py_min ys ;;
  Ok (fsub hi lo).

Definition distance (c1 c2 : point) : num :=
  hypot (fsub (fst c1) (fst c2)) (fsub (snd c1) (snd c2)).

(** *** Console output and the analysis *)

(** What one pair's line shows (source lines 168-174), under the names of
    the local variables it prints. *)
Record pair_stats : Type := {
  p_i : nat; p_j : nat;
  d_abs : num; avg_h : num; d_rel : num;
  abs_flag : bool; rel_flag : bool
}.

(** One call of [print] in [analyze_poses]. *)
Inductive line : Type :=
| NoPeople                                   (* line 145 *)
| CentersHeader                              (* line 148 *)
| PersonLine (i : nat) (c : point) (h : num) (* line 154 *)
| PairsHeader                                (* line 158 *)
| PairLine (p : pair_stats)                  (* lines 168-174 *)
| ThresholdsLine (d r : num)                 (* lines 179-182 *)
| ViolenceLine                               (* line 185 *)
| NoViolenceLine.                            (* line 187 *)

(** A computation that prints and may raise: the lines printed so far and
    the outcome. *)
Definition Py (A : Type) : Type := (list line * result A)%type.

Definition ret {A} (a : A) : Py A := ([], Ok a).
Definition bind {A B} (m : Py A) (k : A -> Py B) : Py B :=
  match m with
  | (out, Ok a) => let (out', r) := k a in (out ++ out', r)
  | (out, Raise e) => (out, Raise e)
  end.
Definition print (l : line) : Py unit := ([l], Ok tt).
Definition lift {A} (r : result A) : Py A := ([], r).

Notation "x <- m ; k" := (bind m (fun x => k))
  (at level 61, m at next level, right associativity).
Notation "m ;; k" := (bind m (fun _ => k))
  (at level 61, right associativity).

(** [for a in l: s = body(a, s)] *)
Fixpoint for_in {A S} (l : list A) (body : A -> S -> Py S) (s : S) : Py S :=
  match l with
  | [] => ret s
  | a :: l' => s' <- body a s ; for_in l' body s'
  end.

Definition range (lo hi : nat) : list nat := seq lo (hi - lo).
Definition enumerate {A} (l : list A) : list (nat * A) :=
  combine (seq 0 (length l)) l.

(** [l[i]] for a non-negative index. *)
Definition index {A} (l : list A) (i : nat) : result A :=
  match nth_error l i with
  | Some a => Ok a
  | None => Raise IndexError
  end.

(** The command-line thresholds the analysis reads from the global [args]. *)
Record Args : Type := { args_distance : num; args_rel_threshold : num }.
Variable args : Args.

(** [(h_i + h_j) / 2.0 if h_i > 0 and h_j > 0 else 1.0] (line 162) *)
Definition avg_height (h_i h_j : num) : num :=
  if fgt h_i f0 && fgt h_j f0 then half_sum h_i h_j else f1.

(** Body of the inner loop (lines 161-177); [any_violence] is the flag it
    may set. *)
Definition pair_body (centers : list point) (heights : list num)
    (i j : nat) (any_violence : bool) : Py bool :=
  c_i <- lift (index centers i) ;
  c_j <- lift (index centers j) ;
  let d_abs := distance c_i c_j in
  h_i <- lift (index heights i) ;
  h_j <- lift (index heights j) ;
  let avg_h := avg_height h_i h_j in
  d_rel <- lift (truediv d_abs avg_h) ;
  let abs_flag := flt d_abs (args_distance args) in
  let rel_flag := flt d_rel (args_rel_threshold args) in
  print (PairLine {| p_i := i; p_j := j; d_abs := d_abs; avg_h := avg_h;
                     d_rel := d_rel; abs_flag := abs_flag;
                     rel_flag := rel_flag |}) ;;
  ret (if abs_flag || rel_flag then true else any_violence).

(** Body of the first loop (lines 150-154). *)
Definition person_body (ip : nat * Pose) (acc : list point * list num)
    : Py (list point * list num) :=
  let (i, pose) := ip in
  let (centers, heights) := acc in
  c <- lift (person_center pose) ;
  h <- lift (person_height pose) ;
  print (PersonLine i c h) ;;
  ret (centers ++ [c], heights ++ [h]).

Definition analyze_poses (poses : list Pose)
    : Py (bool * list point * list num) :=
  let centers := [] in
  let heights := [] in
  if (length poses =? 0)%nat then
    print NoPeople ;;
    ret (false, centers, heights)
  else
    print CentersHeader ;;
    ch <- for_in (enumerate poses) person_body (centers, heights) ;
    let (centers, heights) := ch in
    let any_violence := false in
    print PairsHeader ;;
    any_violence <-
      for_in (range 0 (length centers))
        (fun i any_violence =>
           for_in (range (i + 1) (length centers))
             (pair_body centers heights i) any_violence)
        any_violence ;
    print (ThresholdsLine (args_distance args) (args_rel_threshold args)) ;;
    print (if any_violence then ViolenceLine else NoViolenceLine) ;;
    ret (any_violence, centers, heights).

(** The pair lines of an output, in the order printed. *)
Fixpoint pair_lines (out : list line) : list pair_stats :=
  match out with
  | [] => []
  | PairLine p :: out' => p :: pair_lines out'
  | _ :: out' => pair_lines out'
  end.

(** What a caller receives from [return any_violence, centers, heights]:
    the Python object, a tuple whose length is the number of values
    returned. *)
#[warnings="-register-all"]
Inductive pyval : Type :=
| PyBool (b : bool)
| PyFloat (v : num)
| PyList (items : list pyval)
| PyTuple (items : list pyval).

Definition py_point (c : point) : pyval := PyTuple [PyFloat (fst c); PyFloat (snd c)].

Definition returned (r : result (bool * list point * list num)) : result pyval :=
  v <~ r ;;
  let '(any_violence, centers, heights) := v in
  Ok (PyTuple [PyBool any_violence; PyList (map py_point centers);
               PyList (map PyFloat heights)]).

(** *** Notions the specification uses *)

(** A keypoint with identifier [id] is present in the pose. *)
Definition has_id (pose : Pose) (id : Z) : Prop :=
  exists k, In k (Keypoints pose) /\ ID k = id.

(** [k] is the earliest keypoint of the pose with identifier [id]. *)
Definition first_with_id (pose : Pose) (id : Z) (k : Keypoint) : Prop :=
  exists pre post,
    Keypoints pose = pre ++ k :: post /\ ID k = id /\
    Forall (fun k' => ID k' <> id) pre.

(** Coordinate-wise midpoint of two keypoints. *)
Definition midpoint (a b : Keypoint) : point :=
  (fdiv (fadd (x a) (x b)) f2, fdiv (fadd (y a) (y b)) f2).

(** Arithmetic mean: the sum of the items over their number. *)
Definition mean (l : list num) : num :=
  fdiv (fold_left fadd l f0) (float_of_nat (length l)).

Definition mean_point (pose : Pose) : point :=
  (mean (map x (Keypoints pose)), mean (map y (Keypoints pose))).

(** [m] is a greatest (resp. least) item of [l]: an item that no item
    exceeds (resp. is below). *)
Definition is_max (m : num) (l : list num) : Prop :=
  In m l /\ forall v, In v l -> flt m v = false.
Definition is_min (m : num) (l : list num) : Prop :=
  In m l /\ forall v, In v l -> flt v m = false.

(** A pose the detector can deliver to the center and height
    computations: at least one keypoint. *)
Definition nonempty (pose : Pose) : Prop := Keypoints pose <> [].

(** The pair has one of its two flags set. *)
Definition violation (p : pair_stats) : bool := abs_flag p || rel_flag p.

(** The two indices a pair line is about. *)
Definition indices (p : pair_stats) : nat * nat := (p_i p, p_j p).

(** The index pairs [i < j < n], in the order of the two loops. *)
Definition pairs (n : nat) : list (nat * nat) :=
  flat_map (fun i => map (pair i) (range (i + 1) n)) (range 0 n).

(** The statistics of pair [(i, j)] as lines 161-166 compute them. *)
Definition pair_verdict (centers : list point) (heights : list num)
    (ij : nat * nat) : pair_stats :=
  let (i, j) := ij in
  let d := distance (nth i centers (f0, f0)) (nth j centers (f0, f0)) in
  let a := avg_height (nth i heights f0) (nth j heights f0) in
  let r := fdiv d a in
  {| p_i := i; p_j := j; d_abs := d; avg_h := a; d_rel := r;
     abs_flag := flt d (args_distance args);
     rel_flag := flt r (args_rel_threshold args) |}.

End Analyzer.

Arguments Keypoint F : clear implicits.
Arguments Pose F : clear implicits.
Arguments Args F : clear implicits.
Arguments line F : clear implicits.
Arguments pair_stats F : clear implicits.
Arguments pyval F : clear implicits.
Arguments point F : clear implicits.

(** ** Binary64 *)

(** IEEE binary64 with round to nearest, ties to even: the arithmetic of
    CPython's [float].  [hyp] is the implementation of [math.hypot]. *)
Definition binary64_with (hyp : float -> float -> float) : Float := {|
  num := float;
  f0 := 0%float;
  f1 := 1%float;
  f2 := 2%float;
  fadd := PrimFloat.add;
  fsub := PrimFloat.sub;
  fdiv := PrimFloat.div;
  flt := PrimFloat.ltb;
  feq := PrimFloat.eqb;
  float_of_nat := fun n => PrimFloat.of_uint63 (Uint63.of_Z (Z.of_nat n));
  hypot := hyp
|}.

(** The rounded square root of the rounded sum of squares: what
    [math.hypot] returns as long as the squares neither overflow nor
    underflow, up to the last bit. *)
Definition sqrt_hypot (a b : float) : float :=
  PrimFloat.sqrt (PrimFloat.add (PrimFloat.mul a a) (PrimFloat.mul b b)).

Definition binary64 : Float := binary64_with sqrt_hypot.

(** ** Laws of the arithmetic

    What the properties below use of [<] and [==], and of the mean of two
    positive heights. *)
Class OrderLaws (F : Float) : Prop := {
  flt_irrefl : forall a : num, flt a a = false;
  flt_trans : forall a b c : num, flt a b = true -> flt b c = true -> flt a c = true;
  feq_not_lt : forall a b : num, feq a b = true -> flt a b = false;
  feq_not_gt : forall a b : num, feq a b = true -> flt b a = false;
  flt_0_1 : flt f0 f1 = true
}.

Class MeanLaw (F : Float) : Prop := {
  half_sum_pos : forall a b : num,
      flt f0 a = true -> flt f0 b = true -> flt f0 (half_sum a b) = true
}.

(** ** Sample inputs *)

Definition kp64 (id : Z) (a b : float) : Keypoint binary64 :=
  @Build_Keypoint binary64 id a b.
Definition pose64 (kps : list (Keypoint binary64)) : Pose binary64 :=
  @Build_Pose binary64 kps.

(** The default thresholds of the command line: 150 pixels and the double
    nearest to 0.7. *)
Definition default_args : Args binary64 :=
  @Build_Args binary64 150%float 0x1.6666666666666p-1%float.

(** A pose with two left-hip keypoints. *)
Definition two_left_hips : Pose binary64 :=
  pose64 [kp64 11 0 0; kp64 11 10 10; kp64 12 2 2].
(** The same with the first left hip and the right hip exchanged. *)
Definition two_left_hips_swapped : Pose binary64 :=
  pose64 [kp64 12 2 2; kp64 11 10 10; kp64 11 0 0].

(** A pose with both hips, a nose and an ankle. *)
Definition standing : Pose binary64 :=
  pose64 [kp64 0 50 10; kp64 11 40 100; kp64 12 60 104; kp64 15 50 210].
(** A pose without a right hip. *)
Definition no_right_hip : Pose binary64 :=
  pose64 [kp64 0 50 10; kp64 11 40 100; kp64 15 60 220].

Definition empty_pose (F : Float) : Pose F := @Build_Pose F [].

(** Two people 100 pixels apart, each 200 pixels tall (hips at mid-height),
    and a third one far away, known by a single keypoint. *)
Definition person64 (cx : float) : Pose binary64 :=
  pose64 [kp64 0 cx (-100); kp64 11 cx 0; kp64 12 cx 0; kp64 15 cx 100].
Definition frame64 : list (Pose binary64) :=
  [person64 0; person64 100; pose64 [kp64 0 500 0]].

(** ** Two people at a time, and the script around the analysis *)

Section Closeness.
Context {F : Float}.
Variable args : Args F.

(** A hip keypoint: the only kind [person_center] asks for by ID. *)
Definition is_hip (k : Keypoint F) : bool :=
  (ID k =? LEFT_HIP_ID)%Z || (ID k =? RIGHT_HIP_ID)%Z.

(** Lines 161-166 and 176 for two people given by center and height:
    one of the two flags is set. *)
Definition too_close (a b : point F * num) : bool :=
  let d_abs := distance (fst a) (fst b) in
  let d_rel := fdiv d_abs (avg_height (snd a) (snd b)) in
  flt d_abs (args_distance args) || flt d_rel (args_rel_threshold args).

(** Some item of the list stands in [V] to a later one. *)
Fixpoint any_pair {A : Type} (V : A -> A -> bool) (l : list A) : bool :=
  match l with
  | [] => false
  | a :: l' => existsb (V a) l' || any_pair V l'
  end.

(** Center and height of a pose that has keypoints (zeros for one that
    has none, on which the two functions raise). *)
Definition geometry_of (pose : Pose F) : point F * num :=
  (match person_center pose with Ok c => c | Raise _ => (f0, f0) end,
   match person_height pose with Ok h => h | Raise _ => f0 end).

(** The lines of the first loop for people numbered from [i]. *)
Fixpoint person_lines (i : nat) (centers : list (point F)) (heights : list num)
    : list (line F) :=
  match centers, heights with
  | c :: centers', h :: heights' =>
      PersonLine i c h :: person_lines (S i) centers' heights'
  | _, _ => []
  end.

End Closeness.

(** *** The script: modes and the frame loop (lines 84-87 and 192-266)

    The detector, the image and video functions and [os.path] belong to
    libraries; the script is modelled by the calls it makes on them, in
    order, and by how it ends.  What the libraries answer is given: the
    image and poses of the single-image mode, and for each turn of the
    frame loop what [Capture], [Process], [GetNetworkFPS] and the three
    [IsStreaming] return. *)

Section Script.
Context {F : Float}.
Variable image : Type.
(** [os.getcwd()], [os.path.join], [os.path.basename], [os.path.splitext] *)
Variable cwd : string.
Variable path_join : string -> string -> string.
Variable basename : string -> string.
Variable splitext : string -> string * string.

(** The parsed command line (lines 27-84). *)
Record Cli : Type := {
  cli_image : string;
  cli_input : string;
  cli_output : string;
  cli_network : string;
  cli_threshold : num;
  cli_args : Args F
}.

(** What the script prints outside [analyze_poses]. *)
Inductive message : Type :=
| LoadingImage (path : string)                  (* line 196 *)
| Detected (people : nat)                       (* line 200 *)
| Saved (path : string)                         (* line 212 *)
| NoInputError                                  (* line 219 *)
| RealtimeMode (input output : string)          (* line 222 *)
| Recording (path : string)                     (* line 237 *)
| FrameStatus (status : string) (people : nat)  (* line 251 *)
| Finished (path : string).                     (* line 266 *)

Inductive sink : Type := Display | Recorder.

(** A call on a library, or a line printed. *)
Inductive event : Type :=
| EvLoadNet (network : string) (threshold : num)    (* line 87 *)
| EvPrint (m : message)
| EvLine (l : line F)                               (* printed by analyze_poses *)
| EvLoadImage (path : string)                       (* line 197 *)
| EvProcess (img : image)                           (* lines 199, 245 *)
| EvMakeDirs (dir : string)                         (* lines 206, 232 *)
| EvSaveImage (path : string) (img : image)         (* line 211 *)
| EvOpenSource (uri : string)                       (* line 225 *)
| EvOpenOutput (uri : string)                       (* lines 228, 235 *)
| EvCapture                                         (* line 240 *)
| EvRender (to : sink) (img : image)                (* lines 254, 255 *)
| EvSetStatus (status : string) (fps : num).        (* line 257 *)

(** How the script ends: [sys.exit(code)] or the end of the file (code 0),
    an exception nobody catches, or not at all within the turns given. *)
Inductive outcome : Type :=
| Exit (code : Z)
| Uncaught (e : exn)
| Running.

(** One turn of [while True]: what the libraries answer in it. *)
Record tick : Type := {
  t_frame : option image;        (* input_stream.Capture(), None on timeout *)
  t_poses : list (Pose F);       (* net.Process(img, ...) *)
  t_fps : num;                   (* net.GetNetworkFPS() *)
  t_input_on : bool;             (* input_stream.IsStreaming() *)
  t_display_on : bool;           (* display_out.IsStreaming() *)
  t_record_on : bool             (* record_out.IsStreaming() *)
}.

Record World : Type := {
  w_image : image;               (* loadImage(args.image) *)
  w_poses : list (Pose F);       (* net.Process of that image *)
  w_ticks : list tick
}.

Variable cli : Cli.

(** The condition of line 260. *)
Definition stops (t : tick) : bool :=
  negb (t_input_on t) || negb (t_display_on t) || negb (t_record_on t).

(** Lines 239-263, for the turns given.  [Exit 0] is the loop left by
    [break]: what remains of the script is the print of line 266 and its
    normal end. *)
Fixpoint stream_loop (ticks : list tick) : list event * outcome :=
  match ticks with
  | [] => ([], Running)
  | t :: rest =>
      match t_frame t with
      | None =>
          let (evs, o) := stream_loop rest in (EvCapture :: evs, o)
      | Some img =>
          let poses := t_poses t in
          let (out, r) := analyze_poses (cli_args cli) poses in
          let seen := EvCapture :: EvProcess img :: map EvLine out in
          match r with
          | Raise e => (seen, Uncaught e)
          | Ok (any_violence, _, _) =>
              let status :=
                if any_violence : bool then "VIOLENCE"%string else "SAFE"%string in
              let shown :=
                seen ++ [EvPrint (FrameStatus status (length poses));
                         EvRender Display img; EvRender Recorder img;
                         EvSetStatus status (t_fps t)] in
              if stops t then (shown, Exit 0)
              else let (evs, o) := stream_loop rest in (shown ++ evs, o)
          end
      end
  end.

Definition result_dir : string := path_join cwd "result"%string.

(** Lines 195-213. *)
Definition single_image (w : World) : list event * outcome :=
  let img := w_image w in
  let poses := w_poses w in
  let (out, r) := analyze_poses (cli_args cli) poses in
  let seen :=
    [EvPrint (LoadingImage (cli_image cli)); EvLoadImage (cli_image cli);
     EvProcess img; EvPrint (Detected (length poses))] ++ map EvLine out in
  match r with
  | Raise e => (seen, Uncaught e)
  | Ok _ =>
      let base := basename (cli_image cli) in
      let (name, ext) := splitext base in
      let out_path := path_join result_dir (name ++ "_result" ++ ext)%string in
      (seen ++ [EvMakeDirs result_dir; EvSaveImage out_path img;
                EvPrint (Saved out_path)],
       Exit 0)
  end.

(** Lines 218-266. *)
Definition streaming (w : World) : list event * outcome :=
  match cli_input cli with
  | EmptyString => ([EvPrint NoInputError], Exit 1)
  | _ =>
      let record_path := path_join result_dir "violence_realtime.mp4"%string in
      let record_uri := ("file://" ++ record_path)%string in
      let opened :=
        [EvPrint (RealtimeMode (cli_input cli) (cli_output cli));
         EvOpenSource (cli_input cli); EvOpenOutput (cli_output cli);
         EvMakeDirs result_dir; EvOpenOutput record_uri;
         EvPrint (Recording record_path)] in
      let (evs, o) := stream_loop (w_ticks w) in
      match o with
      | Exit _ => (opened ++ evs ++ [EvPrint (Finished record_path)], o)
      | _ => (opened ++ evs, o)
      end
  end.

(** The script from line 87 on. *)
Definition script (w : World) : list event * outcome :=
  let (evs, o) :=
    match cli_image cli with
    | EmptyString => streaming w
    | _ => single_image w
    end in
  (EvLoadNet (cli_network cli) (cli_threshold cli) :: evs, o).

(** The frames rendered, with the sink of each, in order. *)
Fixpoint renders (evs : list event) : list (sink * image) :=
  match evs with
  | [] => []
  | EvRender to img :: evs' => (to, img) :: renders evs'
  | _ :: evs' => renders evs'
  end.

(** The images saved, with their paths. *)
Fixpoint saves (evs : list event) : list (string * image) :=
  match evs with
  | [] => []
  | EvSaveImage path img :: evs' => (path, img) :: saves evs'
  | _ :: evs' => saves evs'
  end.

(** The streams opened. *)
Fixpoint opens (evs : list event) : list string :=
  match evs with
  | [] => []
  | EvOpenSource uri :: evs' => uri :: opens evs'
  | EvOpenOutput uri :: evs' => uri :: opens evs'
  | _ :: evs' => opens evs'
  end.

(** The frames captured in the turns up to and including the first one in
    which a frame was captured and a stream had stopped. *)
Fixpoint frames_shown (ticks : list tick) : list image :=
  match ticks with
  | [] => []
  | t :: rest =>
      match t_frame t with
      | None => frames_shown rest
      | Some img => if stops t then [img] else img :: frames_shown rest
      end
  end.

(** Some turn captures a frame while a stream has stopped. *)
Definition reaches_stop (ticks : list tick) : bool :=
  existsb (fun t => match t_frame t with Some _ => stops t | None => false end)
    ticks.

End Script.

Arguments Cli F : clear implicits.
Arguments message : clear implicits.
Arguments event F image : clear implicits.
Arguments tick F image : clear implicits.
Arguments World F image : clear implicits.
Arguments EvLoadNet {F image} network threshold.
Arguments EvPrint {F image} m.
Arguments EvLine {F image} l.
Arguments EvLoadImage {F image} path.
Arguments EvMakeDirs {F image} dir.
Arguments EvOpenSource {F image} uri.
Arguments EvOpenOutput {F image} uri.
Arguments EvCapture {F image}.
Arguments EvSetStatus {F image} status fps.

(** *** More sample inputs *)

(** Wider thresholds than the default ones. *)
Definition wide_args : Args binary64 := @Build_Args binary64 200%float 1%float.

(** A command line for the frame loop and one for a single image, frames
    numbered by [nat], and [os.path] as far as these inputs need it: [join]
    puts a slash, the image name has no directory and no extension. *)
Definition join64 (a b : string) : string := (a ++ "/" ++ b)%string.
Definition splitext64 (p : string) : string * string := (p, EmptyString).

Definition cli_camera : Cli binary64 :=
  @Build_Cli binary64 "" "/dev/video0" "display://0" "resnet18-body"
    0.25%float default_args.
Definition cli_picture : Cli binary64 :=
  @Build_Cli binary64 "people" "/dev/video0" "display://0" "resnet18-body"
    0.25%float default_args.

(** A turn in which frame [n] shows [poses], with the input stream on or
    off, and a turn in which the capture times out. *)
Definition turn64 (n : nat) (poses : list (Pose binary64)) (input_on : bool)
    : tick binary64 nat :=
  @Build_tick binary64 nat (Some n) poses 30%float input_on true true.
Definition timeout64 (input_on : bool) : tick binary64 nat :=
  @Build_tick binary64 nat None [] 30%float input_on true true.

Definition cli_nothing : Cli binary64 :=
  @Build_Cli binary64 "" "" "display://0" "resnet18-body" 0.25%float
    default_args.

(** The libraries' answers: the picture shows [frame64]; the camera gives
    frame 1, times out, gives frame 2 while the input stops, and would give
    frame 3. *)
Definition world64 : World binary64 nat :=
  @Build_World binary64 nat 7 frame64
    [turn64 1 frame64 true; timeout64 true; turn64 2 [person64 0] false;
     turn64 3 frame64 true].

(** ** The laws hold in binary64 *)

(** *** Comparisons *)

Lemma finite_cmp_lt (e1 e2 : Z) (m1 m2 : positive) :
  match (e1 ?= e2)%Z with
  | Lt => Lt
  | Gt => Gt
  | Eq => Pos.compare_cont Eq m1 m2
  end = Lt <->
  (e1 < e2 \/ e1 = e2 /\ (m1 < m2)%positive)%Z.
Proof.
  change (Pos.compare_cont Eq m1 m2) with (m1 ?= m2)%positive.
  destruct (Z.compare_spec e1 e2); destruct (Pos.compare_spec m1 m2);
    split; intros; try discriminate; try reflexivity; try lia.
Qed.

Lemma finite_cmp_gt (e1 e2 : Z) (m1 m2 : positive) :
  match (e1 ?= e2)%Z with
  | Lt => Gt
  | Gt => Lt
  | Eq => CompOpp (Pos.compare_cont Eq m1 m2)
  end = Lt <->
  (e2 < e1 \/ e1 = e2 /\ (m2 < m1)%positive)%Z.
Proof.
  change (Pos.compare_cont Eq m1 m2) with (m1 ?= m2)%positive.
  destruct (Z.compare_spec e1 e2); destruct (Pos.compare_spec m1 m2);
    split; simpl; intros; try discriminate; try reflexivity; try lia.
Qed.

Lemma SFltb_lt x y : SFltb x y = true <-> SFcompare x y = Some Lt.
Proof.
  unfold SFltb.
  destruct (SFcompare x y) as [[| |]|]; split; intros; try discriminate; reflexivity.
Qed.

Lemma SFltb_irrefl x : SFltb x x = false.
Proof.
  destruct (SFltb x x) eqn:E; [|reflexivity]. apply SFltb_lt in E.
  destruct x as [[|]|[|]| |[|] m e]; simpl in E; try discriminate;
    injection E as E.
  - apply finite_cmp_gt in E. lia.
  - apply finite_cmp_lt in E. lia.
Qed.

Lemma SFltb_trans x y z :
  SFltb x y = true -> SFltb y z = true -> SFltb x z = true.
Proof.
  rewrite !SFltb_lt.
  destruct x as [[|]|[|]| |[|] m1 e1], y as [[|]|[|]| |[|] m2 e2],
           z as [[|]|[|]| |[|] m3 e3];
    simpl; try discriminate; try reflexivity; intros H1 H2;
    injection H1 as H1; injection H2 as H2; f_equal.
  - apply finite_cmp_gt in H1. apply finite_cmp_gt in H2. apply finite_cmp_gt. lia.
  - apply finite_cmp_lt in H1. apply finite_cmp_lt in H2. apply finite_cmp_lt. lia.
Qed.

Lemma SFeqb_not_ltb x y :
  SFeqb x y = true -> SFltb x y = false /\ SFltb y x = false.
Proof.
  unfold SFeqb, SFltb.
  destruct x as [[|]|[|]| |[|] m1 e1], y as [[|]|[|]| |[|] m2 e2];
    simpl; try discriminate; try (split; reflexivity);
    change (Pos.compare_cont Eq m1 m2) with (m1 ?= m2)%positive;
    change (Pos.compare_cont Eq m2 m1) with (m2 ?= m1)%positive;
    destruct (Z.compare_spec e1 e2); destruct (Pos.compare_spec m1 m2);
    simpl; try discriminate; subst;
    rewrite Z.compare_refl, Pos.compare_refl; split; reflexivity.
Qed.

Lemma binary64_order hyp : OrderLaws (binary64_with hyp).
Proof.
  constructor; simpl.
  - intros a. rewrite ltb_spec. apply SFltb_irrefl.
  - intros a b c. rewrite !ltb_spec. apply SFltb_trans.
  - intros a b. rewrite eqb_spec, ltb_spec. intros H.
    apply (SFeqb_not_ltb _ _ H).
  - intros a b. rewrite eqb_spec, ltb_spec. intros H.
    apply (SFeqb_not_ltb _ _ H).
  - reflexivity.
Qed.

(** *** The mean of two positive doubles is positive

    The sum of two positive doubles is at least twice the least positive
    double, so halving it does not round to zero.  The proof follows the
    rounding function of the specification: a positive mantissa at an
    exponent not below the least one keeps a non-zero digit when it is
    shifted into the format. *)

Section Rounding64.
Local Open Scope Z_scope.
Local Unset Implicit Arguments.

(** The exponent of the format for a number of [k] digits and more; -1074
    is the least exponent. *)
Lemma fexp64 k : fexp prec emax k = Z.max (k - 53) (-1074).
Proof. reflexivity. Qed.

Lemma fexp64_ge k : -1074 <= fexp prec emax k.
Proof. rewrite fexp64. lia. Qed.

Lemma digits2_pos_bound p :
  2 ^ (Zpos (digits2_pos p) - 1) <= Zpos p < 2 ^ Zpos (digits2_pos p).
Proof.
  induction p as [p IH|p IH|]; cbn [digits2_pos].
  - rewrite Pos2Z.inj_succ.
    replace (Z.succ (Zpos (digits2_pos p)) - 1) with (Z.succ (Zpos (digits2_pos p) - 1)) by lia.
    rewrite !Z.pow_succ_r by lia. lia.
  - rewrite Pos2Z.inj_succ.
    replace (Z.succ (Zpos (digits2_pos p)) - 1) with (Z.succ (Zpos (digits2_pos p) - 1)) by lia.
    rewrite !Z.pow_succ_r by lia. lia.
  - simpl. lia.
Qed.

(** A right shift halves the mantissa. *)
Lemma shr_1_m mrs : 0 <= shr_m mrs -> shr_m (shr_1 mrs) = shr_m mrs / 2.
Proof.
  destruct mrs as [m r s]. cbn [shr_m shr_1]. intros Hm.
  destruct m as [|[p|p|]|p]; cbn [shr_m]; try lia.
  - reflexivity.
  - rewrite Pos2Z.inj_xI. apply Z.div_unique with 1; lia.
  - rewrite Pos2Z.inj_xO. apply Z.div_unique with 0; lia.
  - reflexivity.
Qed.

Lemma pow2_xO p : 2 ^ Zpos p~0 = 2 ^ Zpos p * 2 ^ Zpos p.
Proof. rewrite <- Z.pow_add_r by lia. f_equal. lia. Qed.

Lemma pow2_xI p : 2 ^ Zpos p~1 = 2 * (2 ^ Zpos p * 2 ^ Zpos p).
Proof.
  rewrite <- Z.pow_add_r by lia. rewrite <- Z.pow_succ_r by lia. f_equal. lia.
Qed.

Lemma iter_shr_1_m p : forall mrs,
  0 <= shr_m mrs ->
  shr_m (iter_pos shr_1 p mrs) = shr_m mrs / 2 ^ Zpos p.
Proof.
  induction p as [p IH|p IH|]; intros mrs Hm; cbn [iter_pos].
  - assert (H1 : 0 <= shr_m (shr_1 mrs)) by (rewrite shr_1_m by lia; apply Z.div_pos; lia).
    assert (H2 : 0 <= shr_m (iter_pos shr_1 p (shr_1 mrs)))
      by (rewrite IH by lia; apply Z.div_pos; lia).
    rewrite IH, IH, shr_1_m by lia.
    rewrite !Z.div_div by lia. rewrite pow2_xI. reflexivity.
  - assert (H2 : 0 <= shr_m (iter_pos shr_1 p mrs))
      by (rewrite IH by lia; apply Z.div_pos; lia).
    rewrite IH, IH by lia. rewrite !Z.div_div by lia. rewrite pow2_xO. reflexivity.
  - rewrite shr_1_m by lia. reflexivity.
Qed.

Lemma shr_record_of_loc_m m l : shr_m (shr_record_of_loc m l) = m.
Proof. destruct l as [|[| |]]; reflexivity. Qed.

(** Shifting a positive mantissa into the format, from an exponent not
    below the least one, leaves it positive (at least 2 if it was). *)
Lemma shr_fexp_pos p e l :
  -1074 <= e ->
  1 <= shr_m (fst (shr_fexp prec emax (Zpos p) e l)) /\
  -1074 <= snd (shr_fexp prec emax (Zpos p) e l) /\
  (2 <= Zpos p -> 2 <= shr_m (fst (shr_fexp prec emax (Zpos p) e l))).
Proof.
  intros He. unfold shr_fexp, shr. cbn [Zdigits2]. rewrite fexp64.
  pose proof (digits2_pos_bound p) as Hd.
  set (d := Zpos (digits2_pos p)) in *.
  destruct (Z.max (d + e - 53) (-1074) - e) as [|n|n] eqn:En; cbn [fst snd];
    rewrite ?shr_record_of_loc_m; try lia.
  rewrite iter_shr_1_m by (rewrite shr_record_of_loc_m; lia).
  rewrite shr_record_of_loc_m.
  assert (Hn : Zpos n = d - 53) by lia.
  assert (H52 : 2 ^ 52 <= Zpos p / 2 ^ Zpos n).
  { apply Z.div_le_lower_bound; [apply Z.pow_pos_nonneg; lia|].
    rewrite <- Z.pow_add_r by lia. replace (Zpos n + 52) with (d - 1) by lia. lia. }
  assert (2 <= 2 ^ 52) by (compute; discriminate).
  lia.
Qed.

Lemma round_nearest_even_ge m l : m <= round_nearest_even m l.
Proof.
  unfold round_nearest_even. destruct l as [|[| |]]; try lia.
  destruct (Z.even m); lia.
Qed.

(** Rounding a positive mantissa at such an exponent gives a finite
    non-zero double or an infinity, of the same sign. *)
Lemma binary_round_aux_pos s p e l :
  -1074 <= e ->
  (exists m' e', binary_round_aux prec emax s (Zpos p) e l = S754_finite s m' e' /\
                 (2 <= Zpos p -> 2 <= Zpos m')) \/
  binary_round_aux prec emax s (Zpos p) e l = S754_infinity s.
Proof.
  intros He. unfold binary_round_aux.
  destruct (shr_fexp_pos p e l He) as (H1 & H2 & H3).
  destruct (shr_fexp prec emax (Zpos p) e l) as [mrs' e'] eqn:E1. cbn [fst snd] in *.
  pose proof (round_nearest_even_ge (shr_m mrs') (loc_of_shr_record mrs')) as Hr.
  destruct (round_nearest_even (shr_m mrs') (loc_of_shr_record mrs')) as [|q|q] eqn:Eq; try lia.
  destruct (shr_fexp_pos q e' loc_Exact H2) as (K1 & K2 & K3).
  destruct (shr_fexp prec emax (Zpos q) e' loc_Exact) as [mrs'' e''] eqn:E2. cbn [fst snd] in *.
  destruct (shr_m mrs'') as [|m'|m']; try lia.
  destruct (e'' <=? emax - prec); [left|right; reflexivity].
  exists m', e''. split; [reflexivity|]. intros Hp. apply K3. specialize (H3 Hp). lia.
Qed.

(** A finite double has its exponent in range and at most 53 digits. *)
Lemma valid_finite s m e :
  valid_binary (S754_finite s m e) = true ->
  -1074 <= e /\ Zpos (digits2_pos m) <= 53.
Proof.
  cbn [valid_binary]. unfold bounded, canonical_mantissa. rewrite fexp64.
  intros H. apply andb_true_iff in H. destruct H as [H _].
  apply Z.eqb_eq in H. lia.
Qed.

Lemma shl_align_ge mx ex ex' :
  Zpos mx <= Zpos (fst (shl_align mx ex ex')) /\
  Z.min ex ex' <= snd (shl_align mx ex ex').
Proof.
  unfold shl_align. destruct (ex' - ex) as [|d|d] eqn:E; cbn [fst snd]; try lia.
  split; [|lia].
  apply (Pos.iter_invariant d positive xO (fun y => Zpos mx <= Zpos y)); [|lia].
  intros y Hy. rewrite Pos2Z.inj_xO. lia.
Qed.

(** The sum of two positive doubles is a double with mantissa at least 2,
    or infinite. *)
Lemma SFadd_pos x y :
  valid_binary x = true -> valid_binary y = true ->
  SFltb (S754_zero false) x = true -> SFltb (S754_zero false) y = true ->
  (exists m e, SFadd prec emax x y = S754_finite false m e /\ 2 <= Zpos m) \/
  SFadd prec emax x y = S754_infinity false.
Proof.
  intros Vx Vy Hx Hy.
  destruct x as [[|]|[|]| |[|] mx ex]; try discriminate Hx;
    destruct y as [[|]|[|]| |[|] my ey]; try discriminate Hy;
    try (right; reflexivity).
  apply valid_finite in Vx. apply valid_finite in Vy.
  cbn [SFadd cond_Zopp].
  pose proof (shl_align_ge mx ex (Z.min ex ey)) as [Ha _].
  pose proof (shl_align_ge my ey (Z.min ex ey)) as [Hb _].
  set (pa := fst (shl_align mx ex (Z.min ex ey))) in *.
  set (pb := fst (shl_align my ey (Z.min ex ey))) in *.
  change (Zpos pa + Zpos pb) with (Zpos (pa + pb)).
  cbn [binary_normalize]. unfold binary_round.
  pose proof (shl_align_ge (pa + pb) (Z.min ex ey)
                (fexp prec emax (Zpos (digits2_pos (pa + pb)) + Z.min ex ey))) as [Hm He].
  pose proof (fexp64_ge (Zpos (digits2_pos (pa + pb)) + Z.min ex ey)) as Hf.
  destruct (shl_align (pa + pb) (Z.min ex ey)
              (fexp prec emax (Zpos (digits2_pos (pa + pb)) + Z.min ex ey)))
    as [mz ez]. cbn [fst snd] in *.
  destruct (@binary_round_aux_pos false mz ez loc_Exact ltac:(lia))
    as [(m' & e' & E & Hm') | E]; [left | right; exact E].
  exists m', e'. split; [exact E|]. apply Hm'. lia.
Qed.

(** Half of a positive double with mantissa at least 2 is positive. *)
Lemma SFdiv_two_pos m e :
  valid_binary (S754_finite false m e) = true -> 2 <= Zpos m ->
  SFltb (S754_zero false)
    (SFdiv prec emax (S754_finite false m e) (S754_finite false 4503599627370496 (-51))) = true.
Proof.
  intros V Hm. apply valid_finite in V. destruct V as [He Hd].
  cbn [SFdiv xorb]. unfold SFdiv_core_binary. cbn [Zdigits2].
  change (Zpos (digits2_pos 4503599627370496)) with 53.
  set (d := Zpos (digits2_pos m)) in *.
  rewrite fexp64.
  set (e' := Z.min (Z.max (d + e - (53 + -51) - 53) (-1074)) (e - -51)).
  assert (He' : -1074 <= e') by (unfold e'; lia).
  assert (Hs : 51 <= e - -51 - e') by (unfold e'; lia).
  destruct (e - -51 - e') as [|s|s] eqn:Es; try lia.
  rewrite Z.shiftl_mul_pow2 by lia.
  assert (H51 : 2 ^ 51 <= 2 ^ Zpos s) by (apply Z.pow_le_mono_r; lia).
  assert (Hq : 1 <= (Zpos m * 2 ^ Zpos s) / 4503599627370496).
  { apply Z.div_le_lower_bound; [lia|].
    change (4503599627370496 * 1) with (2 * 2 ^ 51). nia. }
  unfold Z.div in Hq.
  destruct (Z.div_eucl (Zpos m * 2 ^ Zpos s) 4503599627370496) as [q r].
  destruct q as [|q|q]; try lia.
  destruct (@binary_round_aux_pos false q e' (new_location 4503599627370496 r) He')
    as [(m' & e'' & E & _) | E]; rewrite E; reflexivity.
Qed.

Lemma binary64_half_sum_pos (a b : float) :
  (0 <? a)%float = true -> (0 <? b)%float = true ->
  (0 <? (a + b) / 2)%float = true.
Proof.
  rewrite !ltb_spec, div_spec, add_spec.
  change (Prim2SF 0) with (S754_zero false).
  change (Prim2SF 2) with (S754_finite false 4503599627370496 (-51)).
  intros Ha Hb.
  pose proof (Prim2SF_valid (a + b)) as Vs. rewrite add_spec in Vs.
  destruct (@SFadd_pos _ _ (Prim2SF_valid a) (Prim2SF_valid b) Ha Hb)
    as [(m & e & E & Hm) | E]; unfold SF64add, SF64div in *; rewrite E in *.
  - apply (@SFdiv_two_pos m e); assumption.
  - reflexivity.
Qed.

(** *** The difference of a finite double with itself is 0 *)

Lemma SFsub_diag x :
  match x with S754_nan | S754_infinity _ => False | _ => True end ->
  SFsub prec emax x x = S754_zero false.
Proof.
  destruct x as [[|]|[|]| |[|] m e]; intros H; try contradiction; try reflexivity.
  - cbn [SFsub cond_Zopp]. rewrite Z.sub_diag. reflexivity.
  - cbn [SFsub cond_Zopp]. rewrite Z.sub_diag. reflexivity.
Qed.

Lemma is_finite_cases (v : float) :
  is_finite v = true ->
  match Prim2SF v with S754_nan | S754_infinity _ => False | _ => True end.
Proof.
  unfold is_finite, is_nan, is_infinity. rewrite !eqb_spec, abs_spec.
  change (Prim2SF infinity) with (S754_infinity false).
  destruct (Prim2SF v) as [[|]|[|]| |[|] m e]; simpl; try discriminate; trivial.
Qed.

Lemma binary64_sub_diag (v : float) : is_finite v = true -> (v - v = 0)%float.
Proof.
  intros H. apply Prim2SF_inj. rewrite sub_spec.
  change (Prim2SF 0) with (S754_zero false).
  apply SFsub_diag, is_finite_cases, H.
Qed.

End Rounding64.

Lemma binary64_mean hyp : MeanLaw (binary64_with hyp).
Proof.
  constructor. intros a b. apply binary64_half_sum_pos.
Qed.

Lemma frame64_nonempty : frame64 <> [] /\ Forall (@nonempty binary64) frame64.
Proof. split; [discriminate | repeat constructor; discriminate]. Qed.

(** ** Properties of [find_keypoint] and [person_center] *)

Section Centers.
Context {F : Float}.
Implicit Types (pose : Pose F) (k : Keypoint F) (kps : list (Keypoint F)).

Lemma find_in_app kps1 kps2 id :
  find_in (kps1 ++ kps2) id =
  match find_in kps1 id with
  | Some k => Some k
  | None => find_in kps2 id
  end.
Proof.
  induction kps1 as [|k kps1 IH]; simpl; [reflexivity|].
  destruct (ID k =? id)%Z; [reflexivity | exact IH].
Qed.

Lemma find_in_none kps id :
  find_in kps id = None <-> Forall (fun k => ID k <> id) kps.
Proof.
  induction kps as [|k kps IH]; simpl.
  - split; [constructor | reflexivity].
  - destruct (Z.eqb_spec (ID k) id) as [E|E].
    + split; [discriminate|]. intros H. inversion H; subst. congruence.
    + rewrite IH. split; intros H.
      * constructor; assumption.
      * inversion H; assumption.
Qed.

Lemma find_in_first kps id k :
  find_in kps id = Some k <->
  exists pre post,
    kps = pre ++ k :: post /\ ID k = id /\ Forall (fun k' => ID k' <> id) pre.
Proof.
  split.
  - induction kps as [|k0 kps IH]; simpl; [discriminate|].
    destruct (Z.eqb_spec (ID k0) id) as [E|E]; intros H.
    + injection H as ->. exists [], kps. repeat split; [assumption | constructor].
    + destruct (IH H) as (pre & post & -> & Hid & Hpre).
      exists (k0 :: pre), post. repeat split; [assumption|].
      constructor; assumption.
  - intros (pre & post & -> & Hid & Hpre).
    rewrite find_in_app.
    apply find_in_none in Hpre. rewrite Hpre. simpl.
    apply Z.eqb_eq in Hid. rewrite Hid. reflexivity.
Qed.

Lemma find_in_has kps id :
  (exists k, In k kps /\ ID k = id) -> exists k, find_in kps id = Some k.
Proof.
  intros (k & Hin & Hid).
  destruct (find_in kps id) as [k'|] eqn:E; [eauto|].
  apply find_in_none in E. rewrite Forall_forall in E.
  exfalso. exact (E k Hin Hid).
Qed.

Lemma person_center_hips pose lh rh :
  find_keypoint pose LEFT_HIP_ID = Some lh ->
  find_keypoint pose RIGHT_HIP_ID = Some rh ->
  person_center pose = Ok (midpoint lh rh).
Proof.
  intros Hl Hr. unfold person_center. rewrite Hl, Hr. reflexivity.
Qed.

Lemma person_center_fallback pose :
  nonempty pose ->
  find_keypoint pose LEFT_HIP_ID = None \/ find_keypoint pose RIGHT_HIP_ID = None ->
  person_center pose = Ok (mean_point pose).
Proof.
  intros Hne Hnone. unfold person_center, mean_point, mean, sum.
  destruct pose as [kps]. unfold nonempty in Hne. simpl in Hne.
  destruct kps as [|k kps]; [congruence|].
  destruct Hnone as [H|H]; rewrite H.
  - reflexivity.
  - destruct (find_keypoint _ LEFT_HIP_ID); reflexivity.
Qed.

Lemma person_center_ok pose :
  nonempty pose -> exists c, person_center pose = Ok c.
Proof.
  intros Hne.
  destruct (find_keypoint pose LEFT_HIP_ID) as [lh|] eqn:El.
  - destruct (find_keypoint pose RIGHT_HIP_ID) as [rh|] eqn:Er.
    + eexists. apply person_center_hips; eassumption.
    + eexists. apply person_center_fallback; auto.
  - eexists. apply person_center_fallback; auto.
Qed.

End Centers.

Section CenterClaims.
Context {F : Float}.
Implicit Types (pose : Pose F) (k : Keypoint F) (kps : list (Keypoint F)).

Lemma has_id_find pose id :
  has_id pose id <-> exists k, find_keypoint pose id = Some k.
Proof.
  split.
  - apply find_in_has.
  - intros (k & Hk). apply find_in_first in Hk.
    destruct Hk as (pre & post & E & Hid & _).
    exists k. split; [|assumption].
    rewrite E. apply in_or_app. right. left. reflexivity.
Qed.

(** C10: [find_keypoint] returns the earliest keypoint of the collection
    whose ID is the requested one, and [None] exactly when no keypoint has
    that ID; so [person_center] takes the midpoint of the earliest left-hip
    and the earliest right-hip keypoint, whatever duplicates follow them. *)
Theorem find_keypoint_first_match pose id :
  (forall k, find_keypoint pose id = Some k <-> first_with_id pose id k) /\
  (find_keypoint pose id = None <-> ~ has_id pose id) /\
  (forall lh rh,
      first_with_id pose LEFT_HIP_ID lh ->
      first_with_id pose RIGHT_HIP_ID rh ->
      person_center pose = Ok (midpoint lh rh)).
Proof.
  split; [|split].
  - intros k. apply find_in_first.
  - rewrite has_id_find. split.
    + intros H (k & Hk). congruence.
    + intros H. destruct (find_keypoint pose id) as [k|]; [|reflexivity].
      exfalso. apply H. exists k. reflexivity.
  - intros lh rh Hl Hr. apply person_center_hips; apply find_in_first; assumption.
Qed.

(** C3: on a pose with at least one keypoint, [person_center] is the
    coordinate-wise midpoint of the left-hip (ID 11) and right-hip (ID 12)
    keypoints when both are present, and otherwise the coordinate-wise
    arithmetic mean of all keypoints. *)
Theorem person_center_midpoint_or_mean pose :
  nonempty pose ->
  (has_id pose LEFT_HIP_ID -> has_id pose RIGHT_HIP_ID ->
   exists lh rh,
     first_with_id pose LEFT_HIP_ID lh /\ first_with_id pose RIGHT_HIP_ID rh /\
     person_center pose = Ok (midpoint lh rh)) /\
  (~ (has_id pose LEFT_HIP_ID /\ has_id pose RIGHT_HIP_ID) ->
   person_center pose = Ok (mean_point pose)).
Proof.
  intros Hne. split.
  - intros Hl Hr.
    apply has_id_find in Hl. apply has_id_find in Hr.
    destruct Hl as (lh & Hl). destruct Hr as (rh & Hr).
    exists lh, rh. repeat split.
    + apply find_in_first. exact Hl.
    + apply find_in_first. exact Hr.
    + apply person_center_hips; assumption.
  - intros Hno. apply person_center_fallback; [assumption|].
    destruct (find_keypoint pose LEFT_HIP_ID) as [lh|] eqn:El; [|left; reflexivity].
    destruct (find_keypoint pose RIGHT_HIP_ID) as [rh|] eqn:Er; [|right; reflexivity].
    exfalso. apply Hno. split; apply has_id_find; eauto.
Qed.

Lemma find_in_swap pre a mid b post id :
  ID a <> ID b ->
  Forall (fun k => ID k <> ID a /\ ID k <> ID b) mid ->
  id = ID a \/ id = ID b ->
  find_in (pre ++ b :: mid ++ a :: post) id =
  find_in (pre ++ a :: mid ++ b :: post) id.
Proof.
  intros Hab Hmid Hid.
  rewrite !find_in_app. destruct (find_in pre id); [reflexivity|].
  assert (Hnone : find_in mid id = None).
  { apply find_in_none. eapply Forall_impl; [|exact Hmid].
    simpl. intros k [H1 H2]. destruct Hid; subst; assumption. }
  simpl. rewrite !find_in_app, Hnone. simpl.
  destruct Hid as [-> | ->].
  - rewrite Z.eqb_refl. destruct (Z.eqb_spec (ID b) (ID a)); [congruence|].
    reflexivity.
  - rewrite Z.eqb_refl. destruct (Z.eqb_spec (ID a) (ID b)); [congruence|].
    reflexivity.
Qed.

(** C8: [person_center] is symmetric in the order of the hips: exchanging
    the positions of the left-hip and the right-hip keypoint of a pose,
    each keeping its ID, leaves the center unchanged.  The pose is given
    by the two hips and by the keypoints before, between and after them;
    those between are no hips, as in every pose in which each hip ID occurs
    once. *)
Theorem person_center_swap_hips pre a mid b post :
  (ID a = LEFT_HIP_ID /\ ID b = RIGHT_HIP_ID) \/
  (ID a = RIGHT_HIP_ID /\ ID b = LEFT_HIP_ID) ->
  Forall (fun k => ID k <> LEFT_HIP_ID /\ ID k <> RIGHT_HIP_ID) mid ->
  person_center {| Keypoints := pre ++ b :: mid ++ a :: post |} =
  person_center {| Keypoints := pre ++ a :: mid ++ b :: post |}.
Proof.
  intros Hids Hmid. unfold person_center, find_keypoint. simpl Keypoints.
  assert (E : forall id, id = LEFT_HIP_ID \/ id = RIGHT_HIP_ID ->
     find_in (pre ++ b :: mid ++ a :: post) id =
     find_in (pre ++ a :: mid ++ b :: post) id).
  { intros id Hid. apply find_in_swap.
    - destruct Hids as [[-> ->]|[-> ->]]; discriminate.
    - eapply Forall_impl; [|exact Hmid]. simpl.
      destruct Hids as [[-> ->]|[-> ->]]; tauto.
    - destruct Hids as [[-> ->]|[-> ->]]; tauto. }
  rewrite (E LEFT_HIP_ID) by (left; reflexivity).
  rewrite (E RIGHT_HIP_ID) by (right; reflexivity).
  destruct (find_in (pre ++ a :: mid ++ b :: post) LEFT_HIP_ID) as [lh|] eqn:El.
  - destruct (find_in (pre ++ a :: mid ++ b :: post) RIGHT_HIP_ID) as [rh|] eqn:Er;
      [reflexivity|].
    exfalso. apply find_in_none in Er. rewrite Forall_forall in Er.
    destruct Hids as [[Ha Hb]|[Ha Hb]].
    + apply (Er b); [|exact Hb].
      apply in_or_app. right. right. apply in_or_app. right. left. reflexivity.
    + apply (Er a); [|exact Ha]. apply in_or_app. right. left. reflexivity.
  - exfalso. apply find_in_none in El. rewrite Forall_forall in El.
    destruct Hids as [[Ha Hb]|[Ha Hb]].
    + apply (El a); [|exact Ha]. apply in_or_app. right. left. reflexivity.
    + apply (El b); [|exact Hb].
      apply in_or_app. right. right. apply in_or_app. right. left. reflexivity.
Qed.

End CenterClaims.

(** *** The same on concrete poses, in binary64 *)

Example find_keypoint_standing :
  find_keypoint standing RIGHT_HIP_ID = Some (kp64 12 60 104) /\
  find_keypoint no_right_hip RIGHT_HIP_ID = None.
Proof. split; reflexivity. Qed.

Example person_center_standing :
  person_center standing = Ok (50%float, 102%float).
Proof. vm_compute. reflexivity. Qed.

Example person_center_no_right_hip :
  person_center no_right_hip = Ok (50%float, 110%float).
Proof. vm_compute. reflexivity. Qed.

Lemma find_keypoint_first_match_witness :
  first_with_id two_left_hips LEFT_HIP_ID (kp64 11 0 0) /\
  first_with_id two_left_hips RIGHT_HIP_ID (kp64 12 2 2) /\
  person_center two_left_hips = Ok (midpoint (kp64 11 0 0) (kp64 12 2 2)).
Proof.
  assert (Hl : first_with_id two_left_hips LEFT_HIP_ID (kp64 11 0 0)).
  { exists [], [kp64 11 10 10; kp64 12 2 2].
    repeat split; constructor. }
  assert (Hr : first_with_id two_left_hips RIGHT_HIP_ID (kp64 12 2 2)).
  { exists [kp64 11 0 0; kp64 11 10 10], [].
    repeat split; repeat constructor; discriminate. }
  split; [exact Hl | split; [exact Hr|]].
  exact (proj2 (proj2 (find_keypoint_first_match two_left_hips LEFT_HIP_ID))
           _ _ Hl Hr).
Defined.

Lemma person_center_midpoint_or_mean_witness :
  nonempty no_right_hip /\
  person_center no_right_hip = Ok (mean_point no_right_hip).
Proof.
  assert (Hne : nonempty no_right_hip) by discriminate.
  split; [exact Hne|].
  apply (proj2 (person_center_midpoint_or_mean Hne)).
  intros [_ (k & Hin & Hid)]. simpl in Hin.
  destruct Hin as [<-|[<-|[<-|[]]]]; discriminate.
Defined.

Lemma person_center_swap_hips_witness :
  person_center (pose64 [kp64 0 50 10; kp64 12 60 104; kp64 5 1 1; kp64 11 40 100]) =
  person_center (pose64 [kp64 0 50 10; kp64 11 40 100; kp64 5 1 1; kp64 12 60 104]).
Proof.
  apply (@person_center_swap_hips binary64
           [kp64 0 50 10] (kp64 11 40 100) [kp64 5 1 1] (kp64 12 60 104) []).
  - left. split; reflexivity.
  - repeat constructor; discriminate.
Defined.

(** A pose that lists a second left-hip keypoint between the two that are
    exchanged is another matter: the earliest keypoint with ID 11 is then a
    different one, and so is the center. *)
Example duplicate_left_hip_exchanged :
  has_id two_left_hips LEFT_HIP_ID /\ has_id two_left_hips RIGHT_HIP_ID /\
  Keypoints two_left_hips = [] ++ kp64 11 0 0 :: [kp64 11 10 10] ++ kp64 12 2 2 :: [] /\
  Keypoints two_left_hips_swapped = [] ++ kp64 12 2 2 :: [kp64 11 10 10] ++ kp64 11 0 0 :: [] /\
  person_center two_left_hips = Ok (1%float, 1%float) /\
  person_center two_left_hips_swapped = Ok (6%float, 6%float) /\
  person_center two_left_hips_swapped <> person_center two_left_hips.
Proof.
  repeat split.
  - exists (kp64 11 0 0). split; [left|]; reflexivity.
  - exists (kp64 12 2 2). split; [right; right; left|]; reflexivity.
  - intros H.
    apply (f_equal (fun r => match r with
                             | Ok c => PrimFloat.eqb (fst c) 1%float
                             | Raise _ => false
                             end)) in H.
    vm_compute in H. discriminate.
Qed.

(** ** Properties of [person_height] *)

Section Heights.
Context {F : Float} {L : OrderLaws F}.
Implicit Types (pose : Pose F) (k : Keypoint F) (l : list num) (m v : num).

Lemma max_fold l : forall seen m,
  In m seen -> (forall u, In u seen -> flt m u = false) ->
  let m' := fold_left (fun m item => if fgt item m then item else m) l m in
  In m' (seen ++ l) /\ forall u, In u (seen ++ l) -> flt m' u = false.
Proof.
  induction l as [|item l IH]; intros seen m Hin Hmax; simpl.
  - rewrite app_nil_r. split; assumption.
  - replace (seen ++ item :: l) with ((seen ++ [item]) ++ l)
      by (rewrite <- app_assoc; reflexivity).
    apply IH.
    + unfold fgt. destruct (flt m item); apply in_or_app;
        [right; left; reflexivity | left; assumption].
    + intros u Hu. apply in_app_or in Hu. unfold fgt.
      destruct (flt m item) eqn:E.
      * destruct Hu as [Hu | [<- | []]]; [|apply flt_irrefl].
        destruct (flt item u) eqn:E'; [|reflexivity].
        rewrite <- (Hmax u Hu). symmetry. eapply flt_trans; eassumption.
      * destruct Hu as [Hu | [<- | []]]; [apply Hmax; assumption | assumption].
Qed.

Lemma min_fold l : forall seen m,
  In m seen -> (forall u, In u seen -> flt u m = false) ->
  let m' := fold_left (fun m item => if flt item m then item else m) l m in
  In m' (seen ++ l) /\ forall u, In u (seen ++ l) -> flt u m' = false.
Proof.
  induction l as [|item l IH]; intros seen m Hin Hmin; simpl.
  - rewrite app_nil_r. split; assumption.
  - replace (seen ++ item :: l) with ((seen ++ [item]) ++ l)
      by (rewrite <- app_assoc; reflexivity).
    apply IH.
    + destruct (flt item m); apply in_or_app;
        [right; left; reflexivity | left; assumption].
    + intros u Hu. apply in_app_or in Hu.
      destruct (flt item m) eqn:E.
      * destruct Hu as [Hu | [<- | []]]; [|apply flt_irrefl].
        destruct (flt u item) eqn:E'; [|reflexivity].
        rewrite <- (Hmin u Hu). symmetry. eapply flt_trans; eassumption.
      * destruct Hu as [Hu | [<- | []]]; [apply Hmin; assumption | assumption].
Qed.

Lemma py_max_is_max l :
  l <> [] -> exists m, py_max l = Ok m /\ is_max m l.
Proof.
  destruct l as [|v l]; [congruence|]. intros _. eexists. split; [reflexivity|].
  apply (max_fold l [v] v).
  - left. reflexivity.
  - intros u [<- | []]. apply flt_irrefl.
Qed.

Lemma py_min_is_min l :
  l <> [] -> exists m, py_min l = Ok m /\ is_min m l.
Proof.
  destruct l as [|v l]; [congruence|]. intros _. eexists. split; [reflexivity|].
  apply (min_fold l [v] v).
  - left. reflexivity.
  - intros u [<- | []]. apply flt_irrefl.
Qed.

(** C5: on a pose with at least one keypoint, [person_height] is a greatest
    y-coordinate of the keypoints minus a least one; on a pose with exactly
    one keypoint it is that keypoint's [y - y], which is 0 for every
    coordinate whose difference with itself is 0, as that of every finite
    double is. *)
Theorem person_height_span pose :
  nonempty pose ->
  (exists ymax ymin,
      is_max ymax (map y (Keypoints pose)) /\
      is_min ymin (map y (Keypoints pose)) /\
      person_height pose = Ok (fsub ymax ymin)) /\
  (forall k, Keypoints pose = [k] -> fsub (y k) (y k) = f0 ->
             person_height pose = Ok f0).
Proof.
  intros Hne. split.
  - assert (Hys : map y (Keypoints pose) <> []).
    { unfold nonempty in Hne. destruct (Keypoints pose); [congruence|discriminate]. }
    destruct (py_max_is_max Hys) as (ymax & Emax & Hmax).
    destruct (py_min_is_min Hys) as (ymin & Emin & Hmin).
    exists ymax, ymin. repeat split; try apply Hmax; try apply Hmin.
    unfold person_height. rewrite Emax, Emin. reflexivity.
  - intros k Hk Hsub. unfold person_height. rewrite Hk. simpl.
    rewrite Hsub. reflexivity.
Qed.

End Heights.

Lemma person_height_ok {F : Float} (pose : Pose F) :
  nonempty pose -> exists h, person_height pose = Ok h.
Proof.
  unfold nonempty, person_height. destruct (Keypoints pose); [congruence|].
  intros _. eexists. reflexivity.
Qed.

(** ** The empty frame *)

(** C2: on the empty pose list [analyze_poses] prints the one
    line that no people were detected and returns the 3-tuple
    [(False, [], [])]: no violation, no centers, no heights, and no pair is
    reported. *)
Theorem analyze_poses_empty {F : Float} (args : Args F) :
  analyze_poses args [] = ([NoPeople], Ok (false, [], [])) /\
  pair_lines (fst (analyze_poses args [])) = [] /\
  returned (snd (analyze_poses args [])) =
    Ok (PyTuple [PyBool false; PyList []; PyList []]).
Proof. repeat split. Qed.

(** What is returned for the empty list has three components, so it is not
    the 4-tuple [(False, [], [], [])]. *)
Lemma analyze_poses_empty_counterexample :
  returned (snd (analyze_poses default_args [])) <>
    Ok (PyTuple [PyBool false; PyList []; PyList []; PyList []]).
Proof. vm_compute. discriminate. Qed.

(** ** The two loops of [analyze_poses] *)

Section Loops.
Context {F : Float}.
Variable args : Args F.
Implicit Types (out : list (line F)) (centers : list (point F)) (heights : list num).

Lemma bind_ok A B (m : Py A) (k : A -> Py B) out a :
  m = (out, Ok a) -> bind m k = (out ++ fst (k a), snd (k a)).
Proof. intros ->. simpl. destruct (k a). reflexivity. Qed.

Lemma pair_lines_app out1 out2 :
  pair_lines (out1 ++ out2) = pair_lines out1 ++ pair_lines out2.
Proof.
  induction out1 as [|l out1 IH]; simpl; [reflexivity|].
  destruct l; simpl; rewrite IH; reflexivity.
Qed.

Lemma pair_lines_PairLine (ps : list (pair_stats F)) :
  pair_lines (map (@PairLine F) ps) = ps.
Proof. induction ps as [|p ps IH]; simpl; [|rewrite IH]; reflexivity. Qed.

Lemma index_nth A (l : list A) i d :
  i < length l -> index l i = Ok (nth i l d).
Proof.
  intros Hi. unfold index. rewrite (nth_error_nth' l d Hi). reflexivity.
Qed.

Context {L : OrderLaws F} {M : MeanLaw F}.

Lemma avg_height_pos h_i h_j : flt f0 (avg_height h_i h_j) = true.
Proof.
  unfold avg_height, fgt.
  destruct (flt f0 h_i) eqn:Ei; simpl; [|apply flt_0_1].
  destruct (flt f0 h_j) eqn:Ej; [|apply flt_0_1].
  apply half_sum_pos; assumption.
Qed.

Lemma avg_height_nonzero h_i h_j : feq (avg_height h_i h_j) f0 = false.
Proof.
  destruct (feq (avg_height h_i h_j) f0) eqn:E; [|reflexivity].
  apply feq_not_gt in E. rewrite avg_height_pos in E. discriminate.
Qed.

Lemma truediv_avg_height d h_i h_j :
  truediv d (avg_height h_i h_j) = Ok (fdiv d (avg_height h_i h_j)).
Proof. unfold truediv. rewrite avg_height_nonzero. reflexivity. Qed.

Lemma pair_body_run centers heights i j any :
  i < length centers -> j < length centers -> length heights = length centers ->
  pair_body args centers heights i j any =
  ([PairLine (pair_verdict args centers heights (i, j))],
   Ok (violation (pair_verdict args centers heights (i, j)) || any)).
Proof.
  intros Hi Hj Hlen. unfold pair_body, lift.
  rewrite (index_nth centers (f0, f0) Hi), (index_nth centers (f0, f0) Hj).
  rewrite (@index_nth _ heights i f0), (@index_nth _ heights j f0) by lia.
  cbn [bind]. rewrite truediv_avg_height. cbn [bind print ret app fst snd].
  unfold violation, pair_verdict. cbn [abs_flag rel_flag].
  destruct (flt _ _ || flt _ _); reflexivity.
Qed.

Lemma inner_loop_run centers heights i : forall k lo any,
  i < length centers -> lo + k <= length centers ->
  length heights = length centers ->
  for_in (seq lo k) (pair_body args centers heights i) any =
  (map (@PairLine F) (map (pair_verdict args centers heights) (map (pair i) (seq lo k))),
   Ok (existsb violation
         (map (pair_verdict args centers heights) (map (pair i) (seq lo k)))
       || any)).
Proof.
  induction k as [|k IH]; intros lo any Hi Hk Hlen; [reflexivity|].
  cbn [seq for_in].
  assert (Hlo : lo < length centers) by lia.
  rewrite (bind_ok _ (pair_body_run centers heights any Hi Hlo Hlen)).
  rewrite IH by (assumption || lia). cbn [fst snd map existsb app].
  f_equal. f_equal.
  repeat match goal with
         | |- context [existsb ?f ?l] => destruct (existsb f l)
         | |- context [violation ?p] => destruct (violation p)
         end; destruct any; reflexivity.
Qed.

Lemma outer_loop_run centers heights : forall k lo any,
  lo + k <= length centers -> length heights = length centers ->
  for_in (seq lo k)
    (fun i any_violence =>
       for_in (range (i + 1) (length centers))
         (pair_body args centers heights i) any_violence) any =
  (map (@PairLine F)
     (map (pair_verdict args centers heights)
        (flat_map (fun i => map (pair i) (range (i + 1) (length centers)))
           (seq lo k))),
   Ok (existsb violation
         (map (pair_verdict args centers heights)
            (flat_map (fun i => map (pair i) (range (i + 1) (length centers)))
               (seq lo k)))
       || any)).
Proof.
  induction k as [|k IH]; intros lo any Hk Hlen; [reflexivity|].
  cbn [seq for_in flat_map].
  pose proof (@inner_loop_run centers heights lo
                (length centers - (lo + 1)) (lo + 1) any
                ltac:(lia) ltac:(lia) Hlen) as Hin.
  fold (range (lo + 1) (length centers)) in Hin.
  rewrite (bind_ok _ Hin).
  rewrite IH by (assumption || lia). cbn [fst snd].
  rewrite !map_app, existsb_app. f_equal. f_equal.
  repeat match goal with
         | |- context [existsb ?f ?l] => destruct (existsb f l)
         end; destruct any; reflexivity.
Qed.

End Loops.

Section PersonLoop.
Context {F : Float}.
Implicit Types (poses : list (Pose F)) (centers : list (point F)) (heights : list num).

Lemma geometry_exists poses :
  Forall (@nonempty F) poses ->
  exists centers heights,
    Forall2 (fun p c => person_center p = Ok c) poses centers /\
    Forall2 (fun p h => person_height p = Ok h) poses heights.
Proof.
  induction 1 as [|pose poses Hne _ IH].
  - exists [], []. split; constructor.
  - destruct IH as (centers & heights & Hc & Hh).
    destruct (person_center_ok Hne) as (c & Ec).
    destruct (person_height_ok Hne) as (h & Eh).
    exists (c :: centers), (h :: heights). split; constructor; assumption.
Qed.

Lemma person_loop_run poses : forall i cs hs centers heights,
  Forall2 (fun p c => person_center p = Ok c) poses centers ->
  Forall2 (fun p h => person_height p = Ok h) poses heights ->
  exists out,
    for_in (combine (seq i (length poses)) poses) (@person_body F) (cs, hs) =
      (out, Ok (cs ++ centers, hs ++ heights)) /\
    pair_lines out = [].
Proof.
  induction poses as [|pose poses IH]; intros i cs hs centers heights Hc Hh.
  - inversion Hc; inversion Hh; subst. exists []. rewrite !app_nil_r.
    split; reflexivity.
  - inversion Hc as [|? c ? centers' Ec Hc']; subst.
    inversion Hh as [|? h ? heights' Eh Hh']; subst.
    destruct (IH (S i) (cs ++ [c]) (hs ++ [h]) centers' heights' Hc' Hh')
      as (out & Eout & Hout).
    exists (PersonLine i c h :: out). split; [|exact Hout].
    cbn [length seq combine for_in].
    assert (Ebody : person_body (i, pose) (cs, hs) =
                    ([PersonLine i c h], Ok (cs ++ [c], hs ++ [h]))).
    { unfold person_body, lift. rewrite Ec, Eh. reflexivity. }
    rewrite (bind_ok _ Ebody), Eout. cbn [fst snd app].
    rewrite <- !app_assoc. reflexivity.
Qed.

End PersonLoop.

(** ** Poses without keypoints *)

Section EmptyPose.
Context {F : Float}.
Variable args : Args F.

Lemma person_loop_raises (poses : list (Pose F)) : forall i cs hs,
  In (empty_pose F) poses ->
  exists out,
    for_in (combine (seq i (length poses)) poses) (@person_body F) (cs, hs) =
      (out, Raise ZeroDivisionError) /\
    pair_lines out = [].
Proof.
  induction poses as [|pose poses IH]; intros i cs hs Hin; [destruct Hin|].
  cbn [length seq combine for_in].
  destruct pose as [[|k kps]].
  - exists []. split; reflexivity.
  - destruct Hin as [Hin|Hin]; [discriminate|].
    assert (Hne : nonempty {| Keypoints := k :: kps |}) by discriminate.
    destruct (person_center_ok Hne) as (c & Ec).
    destruct (person_height_ok Hne) as (h & Eh).
    destruct (IH (S i) (cs ++ [c]) (hs ++ [h]) Hin) as (out & Eout & Hout).
    exists (PersonLine i c h :: out). split; [|exact Hout].
    assert (Ebody : person_body (i, {| Keypoints := k :: kps |}) (cs, hs) =
                    ([PersonLine i c h], Ok (cs ++ [c], hs ++ [h]))).
    { unfold person_body, lift. rewrite Ec, Eh. reflexivity. }
    rewrite (bind_ok _ Ebody), Eout. reflexivity.
Qed.

(** C4: on a pose with no keypoint, [person_center] raises
    [ZeroDivisionError], from the average of the empty coordinate list, and
    [person_height] raises [ValueError], from [max] of the empty list;
    neither returns a value.  [analyze_poses] does not look at the poses
    beforehand: on a frame that contains such a pose it stops with the
    [ZeroDivisionError] of the center, before any pair is evaluated. *)
Theorem empty_pose_raises :
  person_center (empty_pose F) = Raise ZeroDivisionError /\
  person_height (empty_pose F) = Raise ValueError /\
  (forall poses, In (empty_pose F) poses ->
     exists out,
       analyze_poses args poses = (out, Raise ZeroDivisionError) /\
       pair_lines out = []).
Proof.
  split; [reflexivity|]. split; [reflexivity|].
  intros poses Hin. unfold analyze_poses, enumerate.
  destruct poses as [|pose poses]; [destruct Hin|].
  cbn [length Nat.eqb].
  destruct (person_loop_raises (pose :: poses) 0 [] [] Hin)
    as (out & Eout & Hout).
  exists (CentersHeader :: out). split; [|exact Hout].
  rewrite (bind_ok _ (eq_refl : print CentersHeader = ([CentersHeader], Ok tt))).
  cbn [length] in Eout. rewrite Eout. reflexivity.
Qed.

End EmptyPose.

(** On the pose without keypoints both functions raise, and what they
    raise is not the specification's [InvalidPoseError]: the center fails
    in the division that averages the empty list. *)
Lemma empty_pose_raises_counterexample :
  person_center (empty_pose binary64) = Raise ZeroDivisionError /\
  person_center (empty_pose binary64) <> Raise InvalidPoseError /\
  person_height (empty_pose binary64) <> Raise InvalidPoseError.
Proof.
  split; [reflexivity|]. split; vm_compute; discriminate.
Qed.

Lemma empty_pose_raises_witness :
  exists out,
    analyze_poses default_args [person64 0; empty_pose binary64] =
      (out, Raise ZeroDivisionError) /\
    pair_lines out = [].
Proof.
  apply (proj2 (proj2 (@empty_pose_raises binary64 default_args))).
  right. left. reflexivity.
Defined.


(** ** The index pairs *)

Lemma pairs_spec n i j : In (i, j) (pairs n) <-> i < j < n.
Proof.
  unfold pairs, range. rewrite in_flat_map. split.
  - intros (i' & Hi' & Hin). apply in_map_iff in Hin.
    destruct Hin as (j' & E & Hj'). injection E as -> ->.
    apply in_seq in Hi'. apply in_seq in Hj'. lia.
  - intros H. exists i. split; [apply in_seq; lia|].
    apply in_map_iff. exists j. split; [reflexivity | apply in_seq; lia].
Qed.

Lemma NoDup_map_pair (i : nat) (l : list nat) :
  NoDup l -> NoDup (map (pair i) l).
Proof.
  induction 1 as [|j l Hj _ IH]; simpl; constructor; [|exact IH].
  intros Hin. apply in_map_iff in Hin. destruct Hin as (j' & E & Hj').
  injection E as ->. exact (Hj Hj').
Qed.

Lemma pairs_from_NoDup n : forall k lo,
  NoDup (flat_map (fun i => map (pair i) (range (i + 1) n)) (seq lo k)).
Proof.
  induction k as [|k IH]; intros lo; cbn [seq flat_map]; [constructor|].
  apply NoDup_app.
  - apply NoDup_map_pair, seq_NoDup.
  - apply IH.
  - intros [i j] H1 H2. apply in_map_iff in H1. destruct H1 as (j' & E & _).
    injection E as <- <-. apply in_flat_map in H2.
    destruct H2 as (i' & Hi' & Hin). apply in_seq in Hi'.
    apply in_map_iff in Hin. destruct Hin as (j'' & E & _).
    injection E as E _. lia.
Qed.

Lemma pairs_from_length n : forall k lo,
  lo + k = n ->
  2 * length (flat_map (fun i => map (pair i) (range (i + 1) n)) (seq lo k)) =
  k * (k - 1).
Proof.
  induction k as [|k IH]; intros lo Hn; [reflexivity|].
  cbn [seq flat_map]. rewrite length_app, length_map. unfold range at 1.
  rewrite length_seq. specialize (IH (S lo) ltac:(lia)).
  replace (n - (lo + 1)) with k by lia.
  replace (S k - 1) with k by lia.
  destruct k as [|k]; [simpl in *; lia|].
  replace (S k - 1) with k in IH by lia. nia.
Qed.

Lemma pairs_length n : length (pairs n) = n * (n - 1) / 2.
Proof.
  unfold pairs, range at 2.
  pose proof (@pairs_from_length n (n - 0) 0 ltac:(lia)) as H.
  replace (n - 0) with n in * by lia.
  rewrite <- H, Nat.mul_comm, Nat.div_mul; [reflexivity | discriminate].
Qed.

Lemma pair_verdict_indices {F : Float} (args : Args F) centers heights l :
  map indices (map (pair_verdict args centers heights) l) = l.
Proof.
  rewrite map_map. rewrite <- (map_id l) at 2. apply map_ext.
  intros [i j]. reflexivity.
Qed.

(** ** The analysis of a frame with people *)

Section Frames.
Context {F : Float} {L : OrderLaws F} {M : MeanLaw F}.
Variable args : Args F.
Implicit Types (poses : list (Pose F)) (centers : list (point F)) (heights : list num).

Lemma analyze_poses_run poses :
  poses <> [] -> Forall (@nonempty F) poses ->
  exists out any centers heights,
    analyze_poses args poses = (out, Ok (any, centers, heights)) /\
    Forall2 (fun p c => person_center p = Ok c) poses centers /\
    Forall2 (fun p h => person_height p = Ok h) poses heights /\
    pair_lines out = map (pair_verdict args centers heights) (pairs (length poses)) /\
    any = existsb violation (pair_lines out).
Proof.
  intros Hne Hvalid.
  destruct (geometry_exists Hvalid) as (centers & heights & Hc & Hh).
  destruct (person_loop_run 0 [] [] Hc Hh) as (out1 & E1 & Hout1).
  pose proof (Forall2_length Hc) as Lc. pose proof (Forall2_length Hh) as Lh.
  pose proof (@outer_loop_run F args L M centers heights (length centers) 0 false
                ltac:(lia) ltac:(lia)) as E2.
  set (ps := map (pair_verdict args centers heights) (pairs (length poses))).
  assert (Eps : map (pair_verdict args centers heights)
                  (flat_map (fun i => map (pair i) (range (i + 1) (length centers)))
                     (seq 0 (length centers))) = ps).
  { unfold ps, pairs, range at 3. rewrite Lc, Nat.sub_0_r. reflexivity. }
  rewrite Eps, orb_false_r in E2.
  exists ([CentersHeader] ++ out1 ++ [PairsHeader] ++ map (@PairLine F) ps ++
          [ThresholdsLine (args_distance args) (args_rel_threshold args);
           if existsb violation ps then ViolenceLine else NoViolenceLine]),
    (existsb violation ps), centers, heights.
  assert (Hpl : pair_lines
            ([CentersHeader] ++ out1 ++ [PairsHeader] ++ map (@PairLine F) ps ++
             [ThresholdsLine (args_distance args) (args_rel_threshold args);
              if existsb violation ps then ViolenceLine else NoViolenceLine]) = ps).
  { rewrite !pair_lines_app, Hout1, pair_lines_PairLine. simpl.
    destruct (existsb violation ps); simpl; apply app_nil_r. }
  repeat split; try assumption; [|rewrite Hpl; reflexivity].
  unfold analyze_poses. destruct poses as [|pose poses']; [congruence|].
  cbn [length Nat.eqb]. unfold enumerate.
  rewrite (bind_ok _ (eq_refl : print CentersHeader = ([CentersHeader], Ok tt))).
  simpl app in E1. rewrite (bind_ok _ E1). cbn [fst snd].
  rewrite (bind_ok _ (eq_refl : print PairsHeader = ([PairsHeader], Ok tt))).
  assert (Er : range 0 (length centers) = seq 0 (length centers))
    by (unfold range; rewrite Nat.sub_0_r; reflexivity).
  rewrite Er, (bind_ok _ E2). reflexivity.
Qed.

End Frames.

(** ** Claims about [analyze_poses] *)

Section FrameClaims.
Context {F : Float} {L : OrderLaws F} {M : MeanLaw F}.
Variable args : Args F.
Implicit Types (poses : list (Pose F)) (centers : list (point F)) (heights : list num).

Lemma in_pair_verdicts centers heights n p :
  In p (map (pair_verdict args centers heights) (pairs n)) ->
  exists i j, i < j < n /\ p = pair_verdict args centers heights (i, j).
Proof.
  intros H. apply in_map_iff in H. destruct H as ([i j] & <- & Hin).
  apply pairs_spec in Hin. exists i, j. split; [assumption | reflexivity].
Qed.

Lemma flt_asym (a b : num) : flt a b = true -> flt b a = false.
Proof.
  intros H. destruct (flt b a) eqn:E; [|reflexivity].
  rewrite <- (flt_irrefl a). symmetry. eapply flt_trans; eassumption.
Qed.

Lemma fle_not_gt (a b : num) : fle a b = true -> fgt a b = false.
Proof.
  unfold fle, fgt. intros H. apply orb_true_iff in H.
  destruct H as [H|H]; [apply flt_asym | apply feq_not_gt]; assumption.
Qed.

(** C1: on a frame of N >= 1 poses (each with at least one keypoint)
    [analyze_poses] reports exactly N*(N-1)/2 pair verdicts, one for each
    pair of indices i < j < N and none twice, and the flag it returns is the
    disjunction over these verdicts of [abs_flag or rel_flag]: it is true
    exactly when some pair has one of its two flags set. *)
Theorem analyze_poses_pairs poses :
  poses <> [] -> Forall (@nonempty F) poses ->
  exists out any centers heights,
    analyze_poses args poses = (out, Ok (any, centers, heights)) /\
    length (pair_lines out) = length poses * (length poses - 1) / 2 /\
    NoDup (map indices (pair_lines out)) /\
    (forall i j, In (i, j) (map indices (pair_lines out)) <-> i < j < length poses) /\
    any = existsb (fun p => abs_flag p || rel_flag p) (pair_lines out) /\
    (any = true <->
     exists p, In p (pair_lines out) /\ (abs_flag p = true \/ rel_flag p = true)).
Proof.
  intros Hne Hvalid.
  destruct (analyze_poses_run args Hne Hvalid)
    as (out & any & centers & heights & E & _ & _ & Hpl & Hany).
  exists out, any, centers, heights. split; [exact E|].
  rewrite Hpl, pair_verdict_indices, length_map, pairs_length.
  split; [reflexivity|]. split; [apply pairs_from_NoDup|].
  split; [intros i j; apply pairs_spec|].
  rewrite Hpl in Hany. split; [exact Hany|].
  rewrite Hany. unfold violation. rewrite existsb_exists.
  split; intros (p & Hin & Hp); exists p; (split; [exact Hin|]).
  - apply orb_true_iff. exact Hp.
  - apply orb_true_iff in Hp. exact Hp.
Qed.

(** C9: on a frame of N >= 1 poses (each with at least one keypoint) the
    returned centers and heights have length N and follow the input order:
    entry i of each is [person_center], resp. [person_height], of pose i. *)
Theorem analyze_poses_geometry poses :
  poses <> [] -> Forall (@nonempty F) poses ->
  exists out any centers heights,
    analyze_poses args poses = (out, Ok (any, centers, heights)) /\
    length centers = length poses /\
    length heights = length poses /\
    (forall i pose, nth_error poses i = Some pose ->
       exists c h,
         nth_error centers i = Some c /\ nth_error heights i = Some h /\
         person_center pose = Ok c /\ person_height pose = Ok h).
Proof.
  intros Hne Hvalid.
  destruct (analyze_poses_run args Hne Hvalid)
    as (out & any & centers & heights & E & Hc & Hh & _).
  exists out, any, centers, heights. split; [exact E|].
  pose proof (Forall2_length Hc) as Lc. pose proof (Forall2_length Hh) as Lh.
  split; [lia|]. split; [lia|].
  clear E Hne Hvalid Lc Lh. revert centers heights Hc Hh.
  induction poses as [|p0 poses IH]; intros centers heights Hc Hh i pose Hi.
  - destruct i; discriminate.
  - inversion Hc as [|? c ? centers' Ec Hc']; subst.
    inversion Hh as [|? h ? heights' Eh Hh']; subst.
    destruct i as [|i]; simpl in Hi.
    + injection Hi as <-. exists c, h. repeat split; assumption.
    + exact (IH centers' heights' Hc' Hh' i pose Hi).
Qed.

(** C6: for every pair that [analyze_poses] evaluates, [avg_h] is the mean
    [(h_i + h_j) / 2] of the two heights when both are strictly positive
    and exactly 1.0 otherwise, in particular when either height is <= 0;
    it is strictly positive, hence not zero, and the normalised distance is
    the quotient [d_abs / avg_h], computed without raising. *)
Theorem avg_height_guard poses :
  poses <> [] -> Forall (@nonempty F) poses ->
  exists out any centers heights,
    analyze_poses args poses = (out, Ok (any, centers, heights)) /\
    forall p, In p (pair_lines out) ->
      exists h_i h_j,
        nth_error heights (p_i p) = Some h_i /\
        nth_error heights (p_j p) = Some h_j /\
        (fgt h_i f0 = true -> fgt h_j f0 = true ->
         avg_h p = fdiv (fadd h_i h_j) f2) /\
        (fgt h_i f0 = false \/ fgt h_j f0 = false -> avg_h p = f1) /\
        (fle h_i f0 = true \/ fle h_j f0 = true -> avg_h p = f1) /\
        fgt (avg_h p) f0 = true /\
        feq (avg_h p) f0 = false /\
        truediv (d_abs p) (avg_h p) = Ok (d_rel p).
Proof.
  intros Hne Hvalid.
  destruct (analyze_poses_run args Hne Hvalid)
    as (out & any & centers & heights & E & _ & Hh & Hpl & _).
  exists out, any, centers, heights. split; [exact E|].
  intros p Hp. rewrite Hpl in Hp.
  destruct (in_pair_verdicts _ _ _ _ Hp) as (i & j & Hij & ->).
  pose proof (Forall2_length Hh) as Lh.
  exists (nth i heights f0), (nth j heights f0).
  cbn [pair_verdict p_i p_j avg_h d_abs d_rel].
  split; [apply nth_error_nth'; lia|]. split; [apply nth_error_nth'; lia|].
  assert (Hoff : fgt (nth i heights f0) f0 = false \/
                 fgt (nth j heights f0) f0 = false ->
                 avg_height (nth i heights f0) (nth j heights f0) = f1).
  { unfold avg_height. intros [H|H]; rewrite H; [reflexivity|].
    rewrite andb_false_r. reflexivity. }
  split; [|split; [exact Hoff|split]].
  - intros Hi Hj. unfold avg_height. rewrite Hi, Hj. reflexivity.
  - intros [H|H]; apply Hoff; [left|right]; apply fle_not_gt; assumption.
  - split; [apply avg_height_pos|]. split; [apply avg_height_nonzero|].
    apply truediv_avg_height.
Qed.

(** C7: both comparisons are strict, for every pair of people.  For all
    i < j < N [analyze_poses] reports one verdict, whose [abs_flag] is
    [distance(centers[i], centers[j]) < args.distance] and whose
    [rel_flag] is [d_abs / avg_h < args.rel_threshold], on the centers and
    heights it returns; it reports no other verdict, a distance equal to
    its threshold sets no flag, and the flag returned is true exactly when
    one of these strict comparisons holds for some pair. *)
Theorem thresholds_strict poses :
  poses <> [] -> Forall (@nonempty F) poses ->
  exists out any centers heights,
    analyze_poses args poses = (out, Ok (any, centers, heights)) /\
    (forall p, In p (pair_lines out) ->
      (exists c_i c_j,
          nth_error centers (p_i p) = Some c_i /\
          nth_error centers (p_j p) = Some c_j /\
          d_abs p = distance c_i c_j) /\
      d_rel p = fdiv (d_abs p) (avg_h p) /\
      abs_flag p = flt (d_abs p) (args_distance args) /\
      rel_flag p = flt (d_rel p) (args_rel_threshold args) /\
      (d_abs p = args_distance args -> abs_flag p = false) /\
      (feq (d_abs p) (args_distance args) = true -> abs_flag p = false) /\
      (feq (d_rel p) (args_rel_threshold args) = true -> rel_flag p = false)) /\
    (forall i j, i < j < length poses ->
      exists p c_i c_j h_i h_j,
        In p (pair_lines out) /\ p_i p = i /\ p_j p = j /\
        nth_error centers i = Some c_i /\ nth_error centers j = Some c_j /\
        nth_error heights i = Some h_i /\ nth_error heights j = Some h_j /\
        d_abs p = distance c_i c_j /\
        d_rel p = fdiv (distance c_i c_j) (avg_height h_i h_j) /\
        abs_flag p = flt (distance c_i c_j) (args_distance args) /\
        rel_flag p = flt (fdiv (distance c_i c_j) (avg_height h_i h_j))
                         (args_rel_threshold args)) /\
    (any = true <->
     exists i j c_i c_j h_i h_j,
       i < j < length poses /\
       nth_error centers i = Some c_i /\ nth_error centers j = Some c_j /\
       nth_error heights i = Some h_i /\ nth_error heights j = Some h_j /\
       (flt (distance c_i c_j) (args_distance args) = true \/
        flt (fdiv (distance c_i c_j) (avg_height h_i h_j))
            (args_rel_threshold args) = true)).
Proof.
  intros Hne Hvalid.
  destruct (analyze_poses_run args Hne Hvalid)
    as (out & any & centers & heights & E & Hc & Hh & Hpl & Hany).
  exists out, any, centers, heights. split; [exact E|].
  pose proof (Forall2_length Hc) as Lc. pose proof (Forall2_length Hh) as Lh.
  split; [|split].
  - intros p Hp. rewrite Hpl in Hp.
    destruct (in_pair_verdicts _ _ _ _ Hp) as (i & j & Hij & ->).
    cbn [pair_verdict abs_flag rel_flag d_abs d_rel avg_h p_i p_j].
    split.
    { exists (nth i centers (f0, f0)), (nth j centers (f0, f0)).
      split; [apply nth_error_nth'; lia|].
      split; [apply nth_error_nth'; lia | reflexivity]. }
    split; [reflexivity|]. split; [reflexivity|]. split; [reflexivity|].
    split; [|split].
    + intros ->. apply flt_irrefl.
    + apply feq_not_lt.
    + apply feq_not_lt.
  - intros i j Hij.
    exists (pair_verdict args centers heights (i, j)),
      (nth i centers (f0, f0)), (nth j centers (f0, f0)),
      (nth i heights f0), (nth j heights f0).
    split.
    { rewrite Hpl. apply in_map. apply pairs_spec. exact Hij. }
    cbn [pair_verdict abs_flag rel_flag d_abs d_rel avg_h p_i p_j].
    repeat (split; [reflexivity || (apply nth_error_nth'; lia)|]).
    reflexivity.
  - rewrite Hany, Hpl. unfold violation. rewrite existsb_exists. split.
    + intros (p & Hp & Hv).
      destruct (in_pair_verdicts _ _ _ _ Hp) as (i & j & Hij & ->).
      cbn [pair_verdict abs_flag rel_flag] in Hv.
      exists i, j, (nth i centers (f0, f0)), (nth j centers (f0, f0)),
        (nth i heights f0), (nth j heights f0).
      split; [exact Hij|].
      repeat (split; [apply nth_error_nth'; lia|]).
      apply orb_true_iff. exact Hv.
    + intros (i & j & c_i & c_j & h_i & h_j & Hij & Ei & Ej & Fi & Fj & Hv).
      exists (pair_verdict args centers heights (i, j)). split.
      * apply in_map. apply pairs_spec. exact Hij.
      * apply (nth_error_nth _ _ (f0, f0)) in Ei, Ej.
        apply (nth_error_nth _ _ f0) in Fi, Fj. subst c_i c_j h_i h_j.
        cbn [pair_verdict abs_flag rel_flag].
        apply orb_true_iff. exact Hv.
Qed.

End FrameClaims.

(** ** The claims on concrete frames *)

Example person_height_standing : person_height standing = Ok 200%float.
Proof. vm_compute. reflexivity. Qed.

Lemma person_height_span_witness :
  nonempty (pose64 [kp64 0 500 37.5]) /\
  person_height (pose64 [kp64 0 500 37.5]) = Ok 0%float.
Proof.
  assert (Hne : nonempty (pose64 [kp64 0 500 37.5])) by discriminate.
  split; [exact Hne|].
  apply (proj2 (@person_height_span binary64 (binary64_order sqrt_hypot) _ Hne)
           (kp64 0 500 37.5)); [reflexivity|].
  apply binary64_sub_diag. reflexivity.
Defined.

(** Three people in binary64 with the default thresholds: the first two are
    100 pixels apart and 200 tall (both flags), the third is 500 and 400
    pixels away and of height 0, so the guard divides by 1.0 (no flag). *)
Example analyze_poses_frame64 :
  snd (analyze_poses default_args frame64) =
    Ok (true,
        [(0%float, 0%float); (100%float, 0%float); (500%float, 0%float)],
        [200%float; 200%float; 0%float]) /\
  map (fun p => (indices p, avg_h p, d_rel p, abs_flag p, rel_flag p))
      (pair_lines (fst (analyze_poses default_args frame64))) =
    [((0, 1), 200%float, 0.5%float, true, true);
     ((0, 2), 1%float, 500%float, false, false);
     ((1, 2), 1%float, 400%float, false, false)].
Proof. split; vm_compute; reflexivity. Qed.

(** One person: no pair, no violation. *)
Example analyze_poses_single64 :
  analyze_poses default_args [person64 0] =
    ([CentersHeader; @PersonLine binary64 0 (0%float, 0%float) 200%float;
      PairsHeader;
      @ThresholdsLine binary64 150%float 0x1.6666666666666p-1%float;
      NoViolenceLine],
     Ok (false, [(0%float, 0%float)], [200%float])).
Proof. vm_compute. reflexivity. Qed.

(** A frame with a pose without keypoints: the analysis stops in the first
    loop, with the error of the average. *)
Example frame_with_empty_pose64 :
  analyze_poses default_args [person64 0; empty_pose binary64] =
    ([CentersHeader; @PersonLine binary64 0 (0%float, 0%float) 200%float],
     Raise ZeroDivisionError).
Proof. vm_compute. reflexivity. Qed.

Lemma analyze_poses_pairs_witness :
  exists out any centers heights,
    analyze_poses default_args frame64 = (out, Ok (any, centers, heights)) /\
    length (pair_lines out) = 3 /\
    (forall i j, In (i, j) (map indices (pair_lines out)) <-> i < j < 3) /\
    any = existsb (fun p => abs_flag p || rel_flag p) (pair_lines out).
Proof.
  destruct (@analyze_poses_pairs binary64 (binary64_order sqrt_hypot) (binary64_mean sqrt_hypot)
              default_args frame64
              (proj1 frame64_nonempty) (proj2 frame64_nonempty))
    as (out & any & centers & heights & E & Hlen & _ & Hin & Hany & _).
  exists out, any, centers, heights.
  split; [exact E | split; [exact Hlen | split; [exact Hin | exact Hany]]].
Defined.

Lemma analyze_poses_geometry_witness :
  exists out any centers heights,
    analyze_poses default_args frame64 = (out, Ok (any, centers, heights)) /\
    length centers = 3 /\ length heights = 3 /\
    exists c h,
      nth_error centers 1 = Some c /\ nth_error heights 1 = Some h /\
      person_center (person64 100) = Ok c /\ person_height (person64 100) = Ok h.
Proof.
  destruct (@analyze_poses_geometry binary64 (binary64_order sqrt_hypot) (binary64_mean sqrt_hypot)
              default_args frame64
              (proj1 frame64_nonempty) (proj2 frame64_nonempty))
    as (out & any & centers & heights & E & Lc & Lh & Hnth).
  exists out, any, centers, heights. repeat split; try assumption.
  exact (Hnth 1 (person64 100) eq_refl).
Defined.

Lemma avg_height_guard_witness :
  exists out any centers heights,
    analyze_poses default_args frame64 = (out, Ok (any, centers, heights)) /\
    forall p, In p (pair_lines out) ->
      fgt (avg_h p) f0 = true /\ truediv (d_abs p) (avg_h p) = Ok (d_rel p).
Proof.
  destruct (@avg_height_guard binary64 (binary64_order sqrt_hypot) (binary64_mean sqrt_hypot)
              default_args frame64
              (proj1 frame64_nonempty) (proj2 frame64_nonempty))
    as (out & any & centers & heights & E & Hp).
  exists out, any, centers, heights. split; [exact E|].
  intros p Hin.
  destruct (Hp p Hin) as (h_i & h_j & _ & _ & _ & _ & _ & Hpos & _ & Hdiv).
  split; assumption.
Defined.

Lemma thresholds_strict_witness :
  exists out any centers heights,
    analyze_poses default_args frame64 = (out, Ok (any, centers, heights)) /\
    (forall p, In p (pair_lines out) ->
      abs_flag p = flt (d_abs p) 150%float /\
      (d_abs p = 150%float -> abs_flag p = false)) /\
    (exists p c_0 c_1,
        In p (pair_lines out) /\ p_i p = 0 /\ p_j p = 1 /\
        nth_error centers 0 = Some c_0 /\ nth_error centers 1 = Some c_1 /\
        abs_flag p = flt (distance c_0 c_1) 150%float).
Proof.
  destruct (@thresholds_strict binary64 (binary64_order sqrt_hypot)
              (binary64_mean sqrt_hypot) default_args frame64
              (proj1 frame64_nonempty) (proj2 frame64_nonempty))
    as (out & any & centers & heights & E & Hp & Hij & _).
  exists out, any, centers, heights. split; [exact E|]. split.
  - intros p Hin. destruct (Hp p Hin) as (_ & _ & Habs & _ & Heq & _).
    split; assumption.
  - destruct (Hij 0 1 ltac:(simpl; lia))
      as (p & c_0 & c_1 & h_0 & h_1 & Hin & Pi & Pj & E0 & E1 & _ & _ & _ & _
          & Habs & _).
    exists p, c_0, c_1. repeat split; assumption.
Defined.


(** ** Further laws of binary64 *)

Section MoreLaws64.
Local Open Scope Z_scope.
Local Unset Implicit Arguments.

(** *** Addition commutes *)
Lemma SFadd_comm x y : SFadd prec emax x y = SFadd prec emax y x.
Proof.
  destruct x as [[|]|[|]| |[|] mx ex], y as [[|]|[|]| |[|] my ey];
    try reflexivity;
    cbn [SFadd]; rewrite (Z.min_comm ey ex), Z.add_comm; reflexivity.
Qed.

Lemma binary64_add_comm (a b : float) : (a + b = b + a)%float.
Proof. apply Prim2SF_inj. rewrite !add_spec. apply SFadd_comm. Qed.

(** *** [<] followed by [==] *)
Lemma SFcompare_eq_finite s1 m1 e1 s2 m2 e2 :
  SFcompare (S754_finite s1 m1 e1) (S754_finite s2 m2 e2) = Some Eq ->
  s1 = s2 /\ m1 = m2 /\ e1 = e2.
Proof.
  cbn [SFcompare]. change (Pos.compare_cont Eq m1 m2) with (m1 ?= m2)%positive.
  destruct s1, s2; try discriminate;
    destruct (Z.compare_spec e1 e2); destruct (Pos.compare_spec m1 m2);
    simpl; try discriminate; intros _; subst; repeat split; assumption || reflexivity.
Qed.

Lemma SFltb_eqb_trans x y z :
  SFltb x y = true -> SFeqb y z = true -> SFltb x z = true.
Proof.
  rewrite !SFltb_lt. unfold SFeqb.
  destruct (SFcompare y z) as [[| |]|] eqn:E; try discriminate. intros H _.
  destruct y as [[|]|[|]| |sy my ey], z as [[|]|[|]| |sz mz ez];
    try discriminate E; try exact H;
    try (destruct x as [[|]|[|]| |[|] mx ex]; try discriminate H; reflexivity);
    try (destruct sy; discriminate E); try (destruct sz; discriminate E).
  apply SFcompare_eq_finite in E. destruct E as (-> & -> & ->). exact H.
Qed.

Lemma binary64_lt_le_trans (a b c : float) :
  (a <? b)%float = true -> ((b <? c) || (b =? c))%float = true ->
  (a <? c)%float = true.
Proof.
  rewrite !ltb_spec, eqb_spec. intros H1 H2.
  apply orb_true_iff in H2. destruct H2 as [H2|H2].
  - eapply SFltb_trans; eassumption.
  - eapply SFltb_eqb_trans; eassumption.
Qed.

(** *** Subtraction in the other order, and squares *)
Lemma binary_round_aux_opp mx ex lx :
  binary_round_aux prec emax true mx ex lx =
  SFopp (binary_round_aux prec emax false mx ex lx).
Proof.
  unfold binary_round_aux.
  destruct (shr_fexp prec emax mx ex lx) as [mrs' e'].
  destruct (shr_fexp prec emax _ e' loc_Exact) as [mrs'' e''].
  destruct (shr_m mrs''); try reflexivity.
  destruct (e'' <=? emax - prec); reflexivity.
Qed.

Lemma binary_round_opp m e :
  binary_round prec emax true m e = SFopp (binary_round prec emax false m e).
Proof.
  unfold binary_round. destruct (shl_align m e _) as [mz ez].
  apply binary_round_aux_opp.
Qed.

Lemma SFopp_involutive x : SFopp (SFopp x) = x.
Proof. destruct x as [[|]|[|]| |[|] m e]; reflexivity. Qed.

Lemma binary_normalize_opp D e :
  D <> 0 ->
  binary_normalize prec emax (- D) e false =
  SFopp (binary_normalize prec emax D e false).
Proof.
  destruct D as [|p|p]; intros H; [congruence| |]; cbn [Z.opp binary_normalize].
  - apply binary_round_opp.
  - rewrite binary_round_opp, SFopp_involutive. reflexivity.
Qed.

Lemma SFsub_swap x y :
  SFsub prec emax y x = SFopp (SFsub prec emax x y) \/
  (SFsub prec emax x y = S754_zero false /\ SFsub prec emax y x = S754_zero false).
Proof.
  destruct x as [[|]|[|]| |sx mx ex], y as [[|]|[|]| |sy my ey];
    try (left; reflexivity); try (right; split; reflexivity);
    try (destruct sx; left; reflexivity); try (destruct sy; left; reflexivity).
  cbn [SFsub]. rewrite (Z.min_comm ey ex).
  set (X := cond_Zopp sx (Zpos (fst (shl_align mx ex (Z.min ex ey))))).
  set (Y := cond_Zopp sy (Zpos (fst (shl_align my ey (Z.min ex ey))))).
  destruct (Z.eq_dec (X - Y) 0) as [E|E].
  - right. replace (Y - X) with 0 by lia. rewrite E. split; reflexivity.
  - left. replace (Y - X) with (- (X - Y)) by lia.
    apply binary_normalize_opp. exact E.
Qed.

Lemma binary64_sub_swap (a b : float) :
  (b - a = - (a - b))%float \/ ((a - b = 0)%float /\ (b - a = 0)%float).
Proof.
  destruct (SFsub_swap (Prim2SF a) (Prim2SF b)) as [H|[H1 H2]].
  - left. apply Prim2SF_inj. rewrite opp_spec, !sub_spec. exact H.
  - right. split; apply Prim2SF_inj; rewrite sub_spec; assumption.
Qed.

Lemma SFmul_opp_opp x : SFmul prec emax (SFopp x) (SFopp x) = SFmul prec emax x x.
Proof. destruct x as [[|]|[|]| |[|] m e]; reflexivity. Qed.

Lemma binary64_square_opp (u : float) : ((- u) * (- u) = u * u)%float.
Proof.
  apply Prim2SF_inj. rewrite !mul_spec, opp_spec. apply SFmul_opp_opp.
Qed.

(** *** A difference is not negative unless the first number is smaller *)
Lemma iter_xO m d : Zpos (Pos.iter xO m d) = Zpos m * 2 ^ Zpos d.
Proof.
  induction d as [|d IH] using Pos.peano_ind.
  - cbn [Pos.iter]. rewrite Pos2Z.inj_xO, Z.pow_1_r. lia.
  - rewrite Pos.iter_succ, Pos2Z.inj_xO, IH, Pos2Z.inj_succ, Z.pow_succ_r by lia.
    lia.
Qed.

Lemma shl_align_val m e ez :
  ez <= e -> Zpos (fst (shl_align m e ez)) = Zpos m * 2 ^ (e - ez).
Proof.
  intros H. unfold shl_align.
  destruct (ez - e) as [|d|d] eqn:E; cbn [fst].
  - replace (e - ez) with 0 by lia. lia.
  - lia.
  - rewrite iter_xO. f_equal. f_equal. lia.
Qed.

Lemma valid_digits s m e :
  valid_binary (S754_finite s m e) = true ->
  -1074 <= e /\ Zpos m < 2 ^ 53 /\ (-1074 < e -> 2 ^ 52 <= Zpos m).
Proof.
  cbn [valid_binary]. unfold bounded, canonical_mantissa. rewrite fexp64.
  intros H. apply andb_true_iff in H. destruct H as [H _].
  apply Z.eqb_eq in H. pose proof (digits2_pos_bound m) as Hd.
  set (d := Zpos (digits2_pos m)) in *.
  split; [lia|]. split.
  - assert (2 ^ d <= 2 ^ 53) by (apply Z.pow_le_mono_r; lia). lia.
  - intros He. replace d with 53 in Hd by lia. exact (proj1 Hd).
Qed.

(** Aligned to the smaller exponent, the mantissas of two doubles compare
    as the pairs of exponent and mantissa do. *)
Lemma aligned_le m1 e1 m2 e2 s1 s2 :
  valid_binary (S754_finite s1 m1 e1) = true ->
  valid_binary (S754_finite s2 m2 e2) = true ->
  (e2 < e1 \/ e1 = e2 /\ (m2 <= m1)%positive) ->
  Zpos (fst (shl_align m2 e2 (Z.min e1 e2))) <=
  Zpos (fst (shl_align m1 e1 (Z.min e1 e2))).
Proof.
  intros V1 V2 H. apply valid_digits in V1. apply valid_digits in V2.
  rewrite !shl_align_val by lia.
  destruct H as [H|[-> H]].
  - replace (Z.min e1 e2) with e2 by lia. rewrite Z.sub_diag, Z.mul_1_r.
    assert (2 ^ 1 <= 2 ^ (e1 - e2)) by (apply Z.pow_le_mono_r; lia).
    assert (2 ^ 52 <= Zpos m1) by (apply V1; lia).
    change (2 ^ 1) with 2 in *. change (2 ^ 53) with (2 * 2 ^ 52) in *. nia.
  - rewrite Z.min_id, Z.sub_diag, !Z.mul_1_r. lia.
Qed.

Lemma binary_normalize_nonneg D e :
  0 <= D -> SFltb (binary_normalize prec emax D e false) (S754_zero false) = false.
Proof.
  destruct D as [|p|p]; intros H; [reflexivity| |lia].
  cbn [binary_normalize]. unfold binary_round, binary_round_aux.
  destruct (shl_align p e _) as [mz ez].
  destruct (shr_fexp prec emax (Zpos mz) ez loc_Exact) as [mrs' e'].
  destruct (shr_fexp prec emax _ e' loc_Exact) as [mrs'' e''].
  destruct (shr_m mrs''); try reflexivity.
  destruct (e'' <=? emax - prec); reflexivity.
Qed.

Lemma SFsub_nonneg x y :
  valid_binary x = true -> valid_binary y = true ->
  SFltb x y = false -> SFltb (SFsub prec emax x y) (S754_zero false) = false.
Proof.
  intros Vx Vy H.
  destruct x as [[|]|[|]| |sx mx ex], y as [[|]|[|]| |sy my ey];
    try reflexivity; try discriminate H;
    try (destruct sx; try reflexivity; discriminate H);
    try (destruct sy; try reflexivity; discriminate H).
  cbn [SFsub]. apply binary_normalize_nonneg.
  assert (Hn : SFcompare (S754_finite sx mx ex) (S754_finite sy my ey) <> Some Lt).
  { intros E. apply SFltb_lt in E. congruence. }
  cbn [SFcompare] in Hn.
  destruct sx, sy; cbn [cond_Zopp].
  - assert (K : ex < ey \/ ey = ex /\ (mx <= my)%positive).
    { destruct (Z.lt_trichotomy ex ey) as [K|[K|K]]; [left; lia|right|].
      - split; [lia|]. destruct (Pos.leb_spec mx my) as [K'|K']; [exact K'|].
        exfalso. apply Hn. f_equal. apply finite_cmp_gt. lia.
      - exfalso. apply Hn. f_equal. apply finite_cmp_gt. lia. }
    pose proof (@aligned_le my ey mx ex true true Vy Vx K) as A.
    rewrite (Z.min_comm ey ex) in A. lia.
  - exfalso. apply Hn. reflexivity.
  - lia.
  - assert (ey < ex \/ ex = ey /\ (my <= mx)%positive).
    { destruct (Z.lt_trichotomy ex ey) as [K|[K|K]]; [|right|left; lia].
      - exfalso. apply Hn. f_equal. apply finite_cmp_lt. lia.
      - split; [exact K|]. destruct (Pos.leb_spec my mx) as [K'|K']; [exact K'|].
        exfalso. apply Hn. f_equal. apply finite_cmp_lt. lia. }
    pose proof (@aligned_le mx ex my ey false false Vx Vy H0) as A. lia.
Qed.

Lemma binary64_sub_nonneg (a b : float) :
  (a <? b)%float = false -> (a - b <? 0)%float = false.
Proof.
  rewrite !ltb_spec, sub_spec. change (Prim2SF 0) with (S754_zero false).
  apply SFsub_nonneg; apply Prim2SF_valid.
Qed.

End MoreLaws64.
(** * Further properties of the analysis *)

Section HipsOnly.
Context {F : Float}.
Implicit Types (pose : Pose F) (k : Keypoint F) (kps : list (Keypoint F)).

Lemma find_in_filter_hip kps id :
  id = LEFT_HIP_ID \/ id = RIGHT_HIP_ID ->
  find_in (filter (@is_hip F) kps) id = find_in kps id.
Proof.
  intros Hid. induction kps as [|k kps IH]; [reflexivity|].
  cbn [filter find_in]. unfold is_hip at 1.
  destruct (Z.eqb_spec (ID k) LEFT_HIP_ID) as [E1|E1];
    [cbn [orb find_in]; rewrite IH; reflexivity|].
  destruct (Z.eqb_spec (ID k) RIGHT_HIP_ID) as [E2|E2];
    [cbn [orb find_in]; rewrite IH; reflexivity|].
  cbn [orb]. rewrite IH.
  destruct (Z.eqb_spec (ID k) id) as [E|E]; [|reflexivity].
  destruct Hid; congruence.
Qed.

(** X1: when both hips are present the center depends on the hip
    keypoints only: two poses with the same hip keypoints, in the same
    order, have the same center, whatever their other keypoints are. *)
Theorem person_center_hips_only pose pose' :
  filter (@is_hip F) (Keypoints pose') = filter (@is_hip F) (Keypoints pose) ->
  has_id pose LEFT_HIP_ID -> has_id pose RIGHT_HIP_ID ->
  person_center pose' = person_center pose.
Proof.
  intros Hf Hl Hr.
  assert (E : forall id, id = LEFT_HIP_ID \/ id = RIGHT_HIP_ID ->
                         find_keypoint pose' id = find_keypoint pose id).
  { intros id Hid. unfold find_keypoint.
    rewrite <- (find_in_filter_hip (Keypoints pose') Hid), Hf.
    apply find_in_filter_hip. exact Hid. }
  apply has_id_find in Hl. apply has_id_find in Hr.
  destruct Hl as (lh & Hl). destruct Hr as (rh & Hr).
  rewrite (person_center_hips _ Hl Hr).
  apply person_center_hips; rewrite E; auto.
Qed.

End HipsOnly.

Lemma person_center_hips_only_witness :
  person_center (pose64 [kp64 11 40 100; kp64 3 7 7; kp64 12 60 104]) =
  person_center standing.
Proof.
  apply (@person_center_hips_only binary64 standing).
  - reflexivity.
  - exists (kp64 11 40 100). split; [right; left|]; reflexivity.
  - exists (kp64 12 60 104). split; [right; right; left|]; reflexivity.
Defined.

(** ** When the analysis fails, and what it prints *)

Section Outcome.
Context {F : Float} {L : OrderLaws F} {M : MeanLaw F}.
Variable args : Args F.
Implicit Types (poses : list (Pose F)) (centers : list (point F)) (heights : list num).

Lemma nonempty_or_empty poses :
  Forall (@nonempty F) poses \/ In (empty_pose F) poses.
Proof.
  induction poses as [|pose poses IH]; [left; constructor|].
  destruct pose as [[|k kps]]; [right; left; reflexivity|].
  destruct IH as [IH|IH]; [left | right; right; exact IH].
  constructor; [discriminate | exact IH].
Qed.

Lemma analyze_poses_stops poses :
  In (empty_pose F) poses ->
  exists out, analyze_poses args poses = (out, Raise ZeroDivisionError).
Proof.
  intros Hin. unfold analyze_poses, enumerate.
  destruct poses as [|pose poses]; [destruct Hin|].
  cbn [length Nat.eqb].
  destruct (person_loop_raises (pose :: poses) 0 [] [] Hin)
    as (out & Eout & _).
  exists (CentersHeader :: out).
  rewrite (bind_ok _ (eq_refl : print CentersHeader = ([CentersHeader], Ok tt))).
  cbn [length] in Eout. rewrite Eout. reflexivity.
Qed.

Lemma analyze_poses_returns poses :
  Forall (@nonempty F) poses ->
  exists out v, analyze_poses args poses = (out, Ok v).
Proof.
  intros Hvalid. destruct poses as [|pose poses].
  - eexists _, _. reflexivity.
  - destruct (@analyze_poses_run F L M args (pose :: poses)
                ltac:(discriminate) Hvalid)
      as (out & any & centers & heights & E & _).
    exists out, (any, centers, heights). exact E.
Qed.

(** X2: [analyze_poses] returns exactly on the frames all of whose poses
    have a keypoint; on any other frame it raises [ZeroDivisionError].  It
    raises nothing else: neither the [ValueError] of [person_height] (the
    center is computed first) nor an [IndexError] of the pair loops. *)
Theorem analyze_poses_outcome poses out r :
  analyze_poses args poses = (out, r) ->
  (Forall (@nonempty F) poses /\ exists v, r = Ok v) \/
  (In (empty_pose F) poses /\ r = Raise ZeroDivisionError).
Proof.
  intros E. destruct (nonempty_or_empty poses) as [H|H].
  - left. split; [exact H|].
    destruct (analyze_poses_returns H) as (out' & v & E').
    exists v. congruence.
  - right. split; [exact H|].
    destruct (analyze_poses_stops poses H) as (out' & E'). congruence.
Qed.

Lemma person_loop_lines poses : forall i cs hs centers heights,
  Forall2 (fun p c => person_center p = Ok c) poses centers ->
  Forall2 (fun p h => person_height p = Ok h) poses heights ->
  for_in (combine (seq i (length poses)) poses) (@person_body F) (cs, hs) =
    (person_lines i centers heights, Ok (cs ++ centers, hs ++ heights)).
Proof.
  induction poses as [|pose poses IH]; intros i cs hs centers heights Hc Hh.
  - inversion Hc; inversion Hh; subst. rewrite !app_nil_r. reflexivity.
  - inversion Hc as [|? c ? centers' Ec Hc']; subst.
    inversion Hh as [|? h ? heights' Eh Hh']; subst.
    cbn [length seq combine for_in person_lines].
    assert (Ebody : person_body (i, pose) (cs, hs) =
                    ([PersonLine i c h], Ok (cs ++ [c], hs ++ [h]))).
    { unfold person_body, lift. rewrite Ec, Eh. reflexivity. }
    rewrite (bind_ok _ Ebody), (IH (S i) _ _ _ _ Hc' Hh'). cbn [fst snd app].
    rewrite <- !app_assoc. reflexivity.
Qed.

(** X3: what [analyze_poses] prints on a frame with people: the header,
    one line per person in input order with the index, center and height
    that are returned, the second header, the pair lines, the thresholds,
    and last the verdict, which says "violence" exactly when the returned
    flag is true. *)
Theorem analyze_poses_transcript poses :
  poses <> [] -> Forall (@nonempty F) poses ->
  exists out any centers heights,
    analyze_poses args poses = (out, Ok (any, centers, heights)) /\
    out = CentersHeader :: person_lines 0 centers heights ++
          PairsHeader :: map (@PairLine F) (pair_lines out) ++
          [ThresholdsLine (args_distance args) (args_rel_threshold args);
           if any then ViolenceLine else NoViolenceLine] /\
    length (person_lines 0 centers heights) = length poses.
Proof.
  intros Hne Hvalid.
  destruct (analyze_poses_run args Hne Hvalid)
    as (out & any & centers & heights & E & Hc & Hh & Hpl & Hany).
  exists out, any, centers, heights. split; [exact E|].
  pose proof (Forall2_length Hc) as Lc. pose proof (Forall2_length Hh) as Lh.
  split.
  - pose proof (person_loop_lines 0 [] [] Hc Hh) as E1.
    pose proof (@outer_loop_run F args L M centers heights (length centers) 0
                  false ltac:(lia) ltac:(lia)) as E2.
    assert (Er : range 0 (length centers) = seq 0 (length centers))
      by (unfold range; rewrite Nat.sub_0_r; reflexivity).
    revert E. unfold analyze_poses. destruct poses as [|pose poses']; [congruence|].
    cbn [length Nat.eqb]. unfold enumerate.
    rewrite (bind_ok _ (eq_refl : print CentersHeader = ([CentersHeader], Ok tt))).
    simpl app in E1. rewrite (bind_ok _ E1). cbn [fst snd].
    rewrite (bind_ok _ (eq_refl : print PairsHeader = ([PairsHeader], Ok tt))).
    rewrite Er, (bind_ok _ E2). cbn [fst snd bind print ret app].
    intros E. injection E as Eout Eany.
    rewrite Hpl. unfold pairs, range at 2. rewrite Lc, Nat.sub_0_r.
    rewrite <- Eany. symmetry. exact Eout.
  - clear - Lc Lh. rewrite Lc in Lh. rewrite Lc. clear Lc.
    generalize 0. revert heights Lh.
    induction centers as [|c cs IH]; intros [|h hs] Lh i; try discriminate;
      [reflexivity|].
    cbn [person_lines length]. f_equal. apply IH. simpl in Lh. lia.
Qed.

End Outcome.

(** ** The flag as a property of the people *)

Lemma existsb_map_comp A B (g : A -> B) (f : B -> bool) (l : list A) :
  existsb f (map g l) = existsb (fun a => f (g a)) l.
Proof. induction l as [|a l IH]; simpl; [|rewrite IH]; reflexivity. Qed.

Lemma existsb_eq_ext A (f g : A -> bool) (l : list A) :
  (forall a, f a = g a) -> existsb f l = existsb g l.
Proof.
  intros H. induction l as [|a l IH]; simpl; [|rewrite H, IH]; reflexivity.
Qed.

Lemma map_nth_seq_all A (l : list A) (d : A) :
  map (fun j => nth j l d) (seq 0 (length l)) = l.
Proof.
  induction l as [|a l IH]; [reflexivity|].
  cbn [length seq map nth]. f_equal.
  rewrite <- seq_shift, map_map. exact IH.
Qed.

Lemma pairs_from_shift n : forall k lo,
  flat_map (fun i => map (pair i) (range (i + 1) (S n))) (seq (S lo) k) =
  map (fun ij => (S (fst ij), S (snd ij)))
    (flat_map (fun i => map (pair i) (range (i + 1) n)) (seq lo k)).
Proof.
  induction k as [|k IH]; intros lo; [reflexivity|].
  cbn [seq flat_map]. rewrite map_app, IH. f_equal.
  unfold range. rewrite map_map.
  replace (S n - (S lo + 1)) with (n - (lo + 1)) by lia.
  replace (S lo + 1) with (S (lo + 1)) by lia.
  rewrite <- seq_shift, map_map. reflexivity.
Qed.

Lemma pairs_S n :
  pairs (S n) =
  map (pair 0) (seq 1 n) ++
  map (fun ij => (S (fst ij), S (snd ij))) (pairs n).
Proof.
  unfold pairs. unfold range at 2 4. rewrite !Nat.sub_0_r.
  cbn [seq flat_map]. rewrite pairs_from_shift. f_equal.
  unfold range. cbn [Nat.add]. rewrite Nat.sub_succ, Nat.sub_0_r. reflexivity.
Qed.

Lemma any_pair_pairs A (V : A -> A -> bool) (d : A) (gs : list A) :
  existsb (fun ij => V (nth (fst ij) gs d) (nth (snd ij) gs d))
    (pairs (length gs)) =
  any_pair V gs.
Proof.
  induction gs as [|a gs IH]; [reflexivity|].
  cbn [length any_pair]. rewrite pairs_S, existsb_app, !existsb_map_comp.
  cbn [fst snd nth]. rewrite IH. f_equal.
  rewrite <- seq_shift, existsb_map_comp.
  rewrite <- (map_nth_seq_all gs d) at 2. rewrite existsb_map_comp.
  reflexivity.
Qed.

Lemma any_pair_app A (V : A -> A -> bool) (l l' : list A) :
  any_pair V l = true -> any_pair V (l ++ l') = true.
Proof.
  induction l as [|a l IH]; [discriminate|].
  cbn [any_pair app]. rewrite existsb_app. intros H.
  apply orb_true_iff in H. destruct H as [H|H].
  - rewrite H. reflexivity.
  - rewrite (IH H). apply orb_true_r.
Qed.

Lemma any_pair_mono A (V V' : A -> A -> bool) (l : list A) :
  (forall a b, V a b = true -> V' a b = true) ->
  any_pair V l = true -> any_pair V' l = true.
Proof.
  intros HV. induction l as [|a l IH]; [discriminate|].
  cbn [any_pair]. intros H. apply orb_true_iff in H. apply orb_true_iff.
  destruct H as [H|H]; [left | right; exact (IH H)].
  apply existsb_exists in H. destruct H as (b & Hb & Hab).
  apply existsb_exists. exists b. split; [exact Hb | exact (HV _ _ Hab)].
Qed.

Lemma existsb_perm A (f : A -> bool) (l l' : list A) :
  Permutation l l' -> existsb f l = existsb f l'.
Proof.
  induction 1 as [|a l l' _ IH|a b l|l l' l'' _ IH1 _ IH2]; simpl.
  - reflexivity.
  - rewrite IH. reflexivity.
  - destruct (f a), (f b); reflexivity.
  - congruence.
Qed.

Lemma any_pair_perm A (V : A -> A -> bool) (l l' : list A) :
  (forall a b, V a b = V b a) ->
  Permutation l l' -> any_pair V l = any_pair V l'.
Proof.
  intros Hsym.
  induction 1 as [|a l l' Hp IH|a b l|l l' l'' _ IH1 _ IH2]; cbn [any_pair existsb].
  - reflexivity.
  - rewrite IH, (existsb_perm _ Hp). reflexivity.
  - rewrite (Hsym b a).
    destruct (V a b), (existsb (V a) l), (existsb (V b) l), (any_pair V l);
      reflexivity.
  - congruence.
Qed.

Section Flag.
Context {F : Float} {L : OrderLaws F} {M : MeanLaw F}.
Implicit Types (poses : list (Pose F)) (centers : list (point F)) (heights : list num).

Lemma geometry_combine poses centers heights :
  Forall2 (fun p c => person_center p = Ok c) poses centers ->
  Forall2 (fun p h => person_height p = Ok h) poses heights ->
  combine centers heights = map (@geometry_of F) poses.
Proof.
  intros Hc. revert heights.
  induction Hc as [|pose c poses centers Ec _ IH]; intros heights Hh;
    inversion Hh as [|? h ? heights' Eh Hh']; subst; [reflexivity|].
  cbn [combine map]. rewrite (IH _ Hh'). f_equal.
  unfold geometry_of. rewrite Ec, Eh. reflexivity.
Qed.

Lemma violation_too_close (args : Args F) centers heights ij :
  length centers = length heights ->
  violation (pair_verdict args centers heights ij) =
  too_close args (nth (fst ij) (combine centers heights) (f0, f0, f0))
                 (nth (snd ij) (combine centers heights) (f0, f0, f0)).
Proof.
  intros Hlen. destruct ij as [i j].
  rewrite !combine_nth by exact Hlen. reflexivity.
Qed.

(** The flag returned is [any_pair too_close] on the people of the frame. *)
Lemma analyze_poses_flag (args : Args F) poses :
  Forall (@nonempty F) poses ->
  exists out centers heights,
    analyze_poses args poses =
      (out, Ok (any_pair (too_close args) (map (@geometry_of F) poses),
                centers, heights)) /\
    combine centers heights = map (@geometry_of F) poses.
Proof.
  intros Hvalid. destruct poses as [|pose poses'].
  - exists [NoPeople], [], []. split; reflexivity.
  - destruct (@analyze_poses_run F L M args (pose :: poses')
                ltac:(discriminate) Hvalid)
      as (out & any & centers & heights & E & Hc & Hh & Hpl & Hany).
    exists out, centers, heights.
    pose proof (geometry_combine Hc Hh) as Hg.
    split; [|exact Hg]. rewrite E.
    rewrite Hany, Hpl, existsb_map_comp.
    pose proof (Forall2_length Hc) as Lc. pose proof (Forall2_length Hh) as Lh.
    rewrite (existsb_eq_ext _
               (fun ij => too_close args
                            (nth (fst ij) (combine centers heights) (f0, f0, f0))
                            (nth (snd ij) (combine centers heights) (f0, f0, f0))))
      by (intros ij; apply violation_too_close; lia).
    rewrite <- Hg.
    replace (length (pose :: poses')) with (length (combine centers heights))
      by (rewrite length_combine; lia).
    rewrite any_pair_pairs. reflexivity.
Qed.

(** X4: the flag does not depend on the order in which the detector lists
    the people, for an arithmetic whose addition commutes and a distance
    that is symmetric (both hold in binary64). *)
Theorem analyze_poses_permutation (args : Args F) poses poses' :
  (forall a b : num, fadd a b = fadd b a) ->
  (forall c1 c2 : point F, distance c1 c2 = distance c2 c1) ->
  Permutation poses poses' -> Forall (@nonempty F) poses ->
  exists any out centers heights out' centers' heights',
    analyze_poses args poses = (out, Ok (any, centers, heights)) /\
    analyze_poses args poses' = (out', Ok (any, centers', heights')).
Proof.
  intros Hadd Hdist Hperm Hvalid.
  assert (Hvalid' : Forall (@nonempty F) poses')
    by (eapply Permutation_Forall; eassumption).
  destruct (analyze_poses_flag args Hvalid) as (out & cs & hs & E & _).
  destruct (analyze_poses_flag args Hvalid') as (out' & cs' & hs' & E' & _).
  exists (any_pair (too_close args) (map (@geometry_of F) poses)),
    out, cs, hs, out', cs', hs'.
  split; [exact E|].
  assert (Hp : any_pair (too_close args) (map (@geometry_of F) poses) =
               any_pair (too_close args) (map (@geometry_of F) poses')).
  { apply any_pair_perm; [|apply Permutation_map; exact Hperm].
    intros a b. unfold too_close, avg_height, half_sum.
    rewrite (Hdist (fst a) (fst b)), (Hadd (snd a) (snd b)).
    rewrite (andb_comm (fgt (snd a) f0)). reflexivity. }
  rewrite E', Hp. reflexivity.
Qed.

(** X5: people detected in addition never clear the flag: if a frame is
    flagged, so is every frame that lists further people after its own. *)
Theorem analyze_poses_more_people (args : Args F) poses more :
  Forall (@nonempty F) poses -> Forall (@nonempty F) more ->
  exists out any centers heights out' any' centers' heights',
    analyze_poses args poses = (out, Ok (any, centers, heights)) /\
    analyze_poses args (poses ++ more) = (out', Ok (any', centers', heights')) /\
    (any = true -> any' = true).
Proof.
  intros Hvalid Hmore.
  assert (Hall : Forall (@nonempty F) (poses ++ more))
    by (apply Forall_app; split; assumption).
  destruct (analyze_poses_flag args Hvalid) as (out & cs & hs & E & _).
  destruct (analyze_poses_flag args Hall) as (out' & cs' & hs' & E' & _).
  eexists out, _, cs, hs, out', _, cs', hs'.
  split; [exact E|]. split; [exact E'|].
  rewrite map_app. apply any_pair_app.
Qed.

(** X6: raising the thresholds never clears the flag: a frame flagged with
    thresholds [args] is flagged with any thresholds that are at least as
    large. *)
Theorem analyze_poses_thresholds (args args' : Args F) poses :
  (forall a b c : num, flt a b = true -> fle b c = true -> flt a c = true) ->
  fle (args_distance args) (args_distance args') = true ->
  fle (args_rel_threshold args) (args_rel_threshold args') = true ->
  Forall (@nonempty F) poses ->
  exists out any out' any' centers heights,
    analyze_poses args poses = (out, Ok (any, centers, heights)) /\
    analyze_poses args' poses = (out', Ok (any', centers, heights)) /\
    (any = true -> any' = true).
Proof.
  intros Hle Hd Hr Hvalid.
  destruct (analyze_poses_flag args Hvalid) as (out & cs & hs & E & Hg).
  destruct (analyze_poses_flag args' Hvalid) as (out' & cs' & hs' & E' & Hg').
  assert (Ecs : cs' = cs /\ hs' = hs).
  { destruct poses as [|pose poses'];
      [cbn in E, E'; injection E as _ <- <-; injection E' as _ <- <-;
       split; reflexivity|].
    destruct (@analyze_poses_run F L M args (pose :: poses')
                ltac:(discriminate) Hvalid)
      as (o1 & a1 & c1 & h1 & E1 & Hc1 & Hh1 & _).
    destruct (@analyze_poses_run F L M args' (pose :: poses')
                ltac:(discriminate) Hvalid)
      as (o2 & a2 & c2 & h2 & E2 & Hc2 & Hh2 & _).
    assert (c1 = c2).
    { clear - Hc1 Hc2. revert c2 Hc2.
      induction Hc1; intros c2 Hc2; inversion Hc2; subst; [reflexivity|].
      f_equal; [congruence | auto]. }
    assert (h1 = h2).
    { clear - Hh1 Hh2. revert h2 Hh2.
      induction Hh1; intros h2 Hh2; inversion Hh2; subst; [reflexivity|].
      f_equal; [congruence | auto]. }
    split; congruence. }
  destruct Ecs as [-> ->].
  eexists out, _, out', _, cs, hs.
  split; [exact E|]. split; [exact E'|].
  apply any_pair_mono. intros a b. unfold too_close. intros H.
  apply orb_true_iff in H. apply orb_true_iff.
  destruct H as [H|H]; [left | right]; eapply Hle; eassumption.
Qed.

End Flag.

(** ** Heights and distances in binary64 *)

Lemma binary64_distance_sym (hyp : float -> float -> float) :
  (forall u v, hyp (- u)%float v = hyp u v) ->
  (forall u v, hyp u (- v)%float = hyp u v) ->
  forall c1 c2 : point (binary64_with hyp), distance c1 c2 = distance c2 c1.
Proof.
  intros Hu Hv [x1 y1] [x2 y2]. unfold distance. cbn [fst snd hypot fsub binary64_with].
  destruct (binary64_sub_swap x1 x2) as [Ex|[Ex Ex']];
    destruct (binary64_sub_swap y1 y2) as [Ey|[Ey Ey']].
  - rewrite Ex, Ey, Hu, Hv. reflexivity.
  - rewrite Ex, Ey, Ey', Hu. reflexivity.
  - rewrite Ex, Ex', Ey, Hv. reflexivity.
  - rewrite Ex, Ex', Ey, Ey'. reflexivity.
Qed.

Lemma sqrt_hypot_signs (u v : float) :
  sqrt_hypot (- u)%float v = sqrt_hypot u v /\
  sqrt_hypot u (- v)%float = sqrt_hypot u v.
Proof.
  unfold sqrt_hypot. rewrite !binary64_square_opp. split; reflexivity.
Qed.

(** X7: in binary64 [distance] is symmetric, whatever [math.hypot]
    computes, as long as it does not depend on the signs of its arguments
    (it takes their absolute values). *)
Theorem distance_symmetric (hyp : float -> float -> float)
    (c1 c2 : point (binary64_with hyp)) :
  (forall u v, hyp (- u)%float v = hyp u v) ->
  (forall u v, hyp u (- v)%float = hyp u v) ->
  distance c1 c2 = distance c2 c1.
Proof. intros Hu Hv. apply binary64_distance_sym; assumption. Qed.

Lemma distance_symmetric_witness :
  @distance binary64 (3%float, 4%float) (0.5%float, (-1)%float) =
  @distance binary64 (0.5%float, (-1)%float) (3%float, 4%float).
Proof.
  apply (@distance_symmetric sqrt_hypot).
  - intros u v. apply sqrt_hypot_signs.
  - intros u v. apply sqrt_hypot_signs.
Defined.

(** X8: [person_height] is never negative: on a pose with a keypoint it
    returns a number that is not below 0, in any arithmetic where [a - b]
    is not negative unless [a < b] (as in binary64, for all doubles). *)
Theorem person_height_not_negative {F : Float} {L : OrderLaws F} (pose : Pose F) :
  (forall a b : num, flt a b = false -> flt (fsub a b) f0 = false) ->
  nonempty pose ->
  exists h, person_height pose = Ok h /\ flt h f0 = false.
Proof.
  intros Hsub Hne.
  assert (Hys : map y (Keypoints pose) <> []).
  { unfold nonempty in Hne. destruct (Keypoints pose); [congruence|discriminate]. }
  destruct (py_max_is_max Hys) as (ymax & Emax & _ & Hmax).
  destruct (py_min_is_min Hys) as (ymin & Emin & Hin & _).
  exists (fsub ymax ymin). split.
  - unfold person_height. rewrite Emax, Emin. reflexivity.
  - apply Hsub, Hmax, Hin.
Qed.

Lemma person_height_not_negative_witness :
  exists h, person_height standing = Ok h /\ PrimFloat.ltb h 0 = false.
Proof.
  apply (@person_height_not_negative binary64 (binary64_order sqrt_hypot)).
  - exact binary64_sub_nonneg.
  - discriminate.
Defined.

(** ** The further properties on concrete frames *)

Lemma analyze_poses_outcome_witness :
  snd (analyze_poses default_args [person64 0; empty_pose binary64]) =
    Raise ZeroDivisionError.
Proof.
  destruct (@analyze_poses_outcome binary64 (binary64_order sqrt_hypot)
              (binary64_mean sqrt_hypot) default_args
              [person64 0; empty_pose binary64] _ _ (surjective_pairing _))
    as [[H _]|[_ H]]; [|exact H].
  exfalso. inversion H as [|? ? _ H']. inversion H' as [|? ? Hne _].
  apply Hne. reflexivity.
Defined.

Lemma analyze_poses_transcript_witness :
  exists out any centers heights,
    analyze_poses default_args frame64 = (out, Ok (any, centers, heights)) /\
    last out NoPeople = (if any then ViolenceLine else NoViolenceLine) /\
    length (person_lines 0 centers heights) = 3.
Proof.
  destruct (@analyze_poses_transcript binary64 (binary64_order sqrt_hypot)
              (binary64_mean sqrt_hypot) default_args frame64
              (proj1 frame64_nonempty) (proj2 frame64_nonempty))
    as (out & any & centers & heights & E & Hout & Hlen).
  exists out, any, centers, heights.
  split; [exact E|]. split; [|exact Hlen].
  rewrite Hout.
  change (CentersHeader :: ?a ++ PairsHeader :: ?b ++ ?c)
    with ((CentersHeader :: a) ++ (PairsHeader :: b) ++ c).
  rewrite !app_assoc.
  match goal with
  | |- last (?l ++ [?a; ?b]) _ = _ =>
      change (l ++ [a; b]) with (l ++ [a] ++ [b]); rewrite app_assoc
  end.
  apply last_last.
Defined.

Lemma analyze_poses_permutation_witness :
  exists any out centers heights out' centers' heights',
    analyze_poses default_args frame64 = (out, Ok (any, centers, heights)) /\
    analyze_poses default_args (rev frame64) = (out', Ok (any, centers', heights')).
Proof.
  apply (@analyze_poses_permutation binary64 (binary64_order sqrt_hypot)
           (binary64_mean sqrt_hypot)).
  - exact binary64_add_comm.
  - apply binary64_distance_sym; intros u v; apply sqrt_hypot_signs.
  - apply Permutation_rev.
  - exact (proj2 frame64_nonempty).
Defined.

Lemma analyze_poses_more_people_witness :
  exists out any centers heights out' any' centers' heights',
    analyze_poses default_args [person64 0; person64 100] =
      (out, Ok (any, centers, heights)) /\
    analyze_poses default_args ([person64 0; person64 100] ++ [person64 40]) =
      (out', Ok (any', centers', heights')) /\
    (any = true -> any' = true).
Proof.
  apply (@analyze_poses_more_people binary64 (binary64_order sqrt_hypot)
           (binary64_mean sqrt_hypot));
    repeat constructor; discriminate.
Defined.

Lemma analyze_poses_thresholds_witness :
  exists out any out' any' centers heights,
    analyze_poses default_args frame64 = (out, Ok (any, centers, heights)) /\
    analyze_poses wide_args frame64 = (out', Ok (any', centers, heights)) /\
    (any = true -> any' = true).
Proof.
  apply (@analyze_poses_thresholds binary64 (binary64_order sqrt_hypot)
           (binary64_mean sqrt_hypot)).
  - exact binary64_lt_le_trans.
  - reflexivity.
  - reflexivity.
  - exact (proj2 frame64_nonempty).
Defined.

(** * The script *)

Section ScriptProperties.
Context {F : Float}.
Variable image : Type.
Variable cwd : string.
Variable path_join : string -> string -> string.
Variable basename : string -> string.
Variable splitext : string -> string * string.
Variable cli : Cli F.

Implicit Types (ticks : list (tick F image)) (w : World F image).

Lemma renders_app (evs evs' : list (event F image)) :
  renders (evs ++ evs') = renders evs ++ renders evs'.
Proof.
  induction evs as [|ev evs IH]; [reflexivity|].
  destruct ev; cbn [app renders]; rewrite IH; reflexivity.
Qed.

Lemma renders_lines (out : list (line F)) :
  renders (map (@EvLine F image) out) = [].
Proof. induction out as [|l out IH]; [reflexivity | exact IH]. Qed.

Lemma saves_lines (out : list (line F)) :
  saves (map (@EvLine F image) out) = [].
Proof. induction out as [|l out IH]; [reflexivity | exact IH]. Qed.

Lemma opens_lines (out : list (line F)) :
  opens (map (@EvLine F image) out) = [].
Proof. induction out as [|l out IH]; [reflexivity | exact IH]. Qed.

Lemma saves_app (evs evs' : list (event F image)) :
  saves (evs ++ evs') = saves evs ++ saves evs'.
Proof.
  induction evs as [|ev evs IH]; [reflexivity|].
  destruct ev; cbn [app saves]; rewrite IH; reflexivity.
Qed.

Lemma opens_app (evs evs' : list (event F image)) :
  opens (evs ++ evs') = opens evs ++ opens evs'.
Proof.
  induction evs as [|ev evs IH]; [reflexivity|].
  destruct ev; cbn [app opens]; rewrite IH; reflexivity.
Qed.

(** X9: a capture that times out costs one call of [Capture] and nothing
    else: nothing is analysed, printed or rendered, and whether the streams
    are still on is not asked in that turn.  So turns that all time out
    leave the loop running, whatever the streams report. *)
Theorem stream_loop_timeouts ticks rest :
  Forall (fun t => t_frame t = None) ticks ->
  stream_loop cli (ticks ++ rest) =
    (repeat (@EvCapture F image) (length ticks) ++ fst (stream_loop cli rest),
     snd (stream_loop cli rest)) /\
  stream_loop cli ticks = (repeat (@EvCapture F image) (length ticks), Running).
Proof.
  intros H. induction H as [|t ticks Ht _ [IH1 IH2]].
  - split; [|reflexivity]. cbn [app length repeat]. apply surjective_pairing.
  - cbn [app length repeat stream_loop]. rewrite Ht, IH1, IH2.
    split; reflexivity.
Qed.

Lemma stream_loop_not_exit_1 ticks : snd (stream_loop cli ticks) <> Exit 1.
Proof.
  induction ticks as [|t ticks IH]; cbn [stream_loop]; [discriminate|].
  destruct (t_frame t) as [img|].
  - destruct (analyze_poses (cli_args cli) (t_poses t)) as [out [[[any cs] hs]|e]];
      [|discriminate].
    destruct (stops t); [discriminate|].
    destruct (stream_loop cli ticks) as [evs o]. exact IH.
  - destruct (stream_loop cli ticks) as [evs o]. exact IH.
Qed.

(** X10: the script ends with [sys.exit(1)] exactly when the command line
    names neither an image nor an input; it has then loaded the network
    and printed the error, and done nothing else. *)
Theorem script_exit_1 w :
  (snd (script cwd path_join basename splitext cli w) = Exit 1 <->
   cli_image cli = EmptyString /\ cli_input cli = EmptyString) /\
  (cli_image cli = EmptyString -> cli_input cli = EmptyString ->
   fst (script cwd path_join basename splitext cli w) =
     [EvLoadNet (cli_network cli) (cli_threshold cli); EvPrint NoInputError]).
Proof.
  unfold script, streaming, single_image. split.
  - destruct (cli_image cli) as [|c s].
    + destruct (cli_input cli) as [|c s].
      * split; [intros _; split; reflexivity | reflexivity].
      * pose proof (stream_loop_not_exit_1 (w_ticks w)) as Hn.
        destruct (stream_loop cli (w_ticks w)) as [evs [code|e|]];
          cbn [snd] in *;
          (split; [intros H; contradiction | intros [_ H]; discriminate]).
    + destruct (analyze_poses (cli_args cli) (w_poses w)) as [out [v|e]].
      * destruct (splitext _) as [name ext]. cbn [snd].
        split; [discriminate | intros [H _]; discriminate].
      * cbn [snd]. split; [discriminate | intros [H _]; discriminate].
  - intros -> ->. reflexivity.
Qed.

Context {L : OrderLaws F} {M : MeanLaw F}.

Lemma stream_loop_turn t img ticks :
  t_frame t = Some img -> Forall (@nonempty F) (t_poses t) ->
  exists evs,
    renders evs = [(Display, img); (Recorder, img)] /\
    stream_loop cli (t :: ticks) =
      if stops t then (evs, Exit 0)
      else (evs ++ fst (stream_loop cli ticks), snd (stream_loop cli ticks)).
Proof.
  intros Ht Hvalid. cbn [stream_loop]. rewrite Ht.
  destruct (@analyze_poses_returns F L M (cli_args cli) _ Hvalid)
    as (out & [[any cs] hs] & E).
  rewrite E.
  eexists. split; [|destruct (stops t); [reflexivity|];
                    destruct (stream_loop cli ticks); reflexivity].
  cbn [renders app]. rewrite renders_app, renders_lines. reflexivity.
Qed.

(** X11: with frames whose poses all have keypoints, the frame loop ends
    (and the script with it, normally) exactly in the first turn that
    captures a frame while one of the three streams has stopped.  Every
    frame captured up to and including that turn is rendered once to the
    display and once to the recording, in this order, and nothing else is
    rendered. *)
Theorem stream_loop_renders ticks :
  Forall (fun t => Forall (@nonempty F) (t_poses t)) ticks ->
  snd (stream_loop cli ticks) = (if reaches_stop ticks then Exit 0 else Running) /\
  renders (fst (stream_loop cli ticks)) =
    flat_map (fun img => [(Display, img); (Recorder, img)]) (frames_shown ticks).
Proof.
  induction 1 as [|t ticks Hvalid _ [IH1 IH2]]; [split; reflexivity|].
  cbn [reaches_stop existsb frames_shown]. fold (reaches_stop ticks).
  destruct (t_frame t) as [img|] eqn:Ht.
  - destruct (stream_loop_turn t ticks Ht Hvalid) as (evs & Hr & E).
    rewrite E. destruct (stops t); cbn [fst snd orb flat_map app].
    + split; [reflexivity | rewrite Hr; reflexivity].
    + split; [exact IH1|]. rewrite renders_app, Hr, IH2. reflexivity.
  - cbn [stream_loop]. rewrite Ht. destruct (stream_loop cli ticks) as [evs o].
    cbn [fst snd orb renders] in *. split; assumption.
Qed.

(** X12: a pose without keypoints ends the frame loop with the uncaught
    [ZeroDivisionError] of the analysis: the frame it came with is not
    rendered, and no later frame is looked at. *)
Theorem stream_loop_empty_pose ticks t rest img :
  Forall (fun t => Forall (@nonempty F) (t_poses t)) ticks ->
  reaches_stop ticks = false ->
  t_frame t = Some img -> In (empty_pose F) (t_poses t) ->
  snd (stream_loop cli (ticks ++ t :: rest)) = Uncaught ZeroDivisionError /\
  renders (fst (stream_loop cli (ticks ++ t :: rest))) =
    flat_map (fun img => [(Display, img); (Recorder, img)]) (frames_shown ticks).
Proof.
  intros Hvalid Hstop Ht Hin.
  destruct (analyze_poses_stops (cli_args cli) (t_poses t) Hin) as (out & E).
  induction Hvalid as [|t0 ticks Hv0 _ IH].
  - cbn [app stream_loop frames_shown flat_map]. rewrite Ht, E. cbn [fst snd].
    split; [reflexivity|]. cbn [renders]. apply renders_lines.
  - cbn [reaches_stop existsb] in Hstop. fold (reaches_stop ticks) in Hstop.
    apply orb_false_iff in Hstop. destruct Hstop as [Hs0 Hstop].
    specialize (IH Hstop). destruct IH as [IH1 IH2].
    cbn [app frames_shown].
    destruct (t_frame t0) as [img0|] eqn:Ht0.
    + destruct (stream_loop_turn t0 (ticks ++ t :: rest) Ht0 Hv0)
        as (evs & Hr & E0).
      rewrite E0, Hs0. cbn [fst snd flat_map app].
      split; [exact IH1|]. rewrite renders_app, Hr, IH2. reflexivity.
    + cbn [stream_loop]. rewrite Ht0.
      destruct (stream_loop cli (ticks ++ t :: rest)) as [evs o].
      cbn [fst snd renders] in *. split; assumption.
Qed.

(** X13: in single-image mode no stream is opened and nothing is rendered,
    even when an input is named.  The annotated image is saved once, under
    the result directory with [_result] before the extension, and the
    script exits with 0, if every pose has a keypoint; if one has none the
    script dies of the [ZeroDivisionError] without saving anything. *)
Theorem single_image_mode w :
  cli_image cli <> EmptyString ->
  opens (fst (script cwd path_join basename splitext cli w)) = [] /\
  renders (fst (script cwd path_join basename splitext cli w)) = [] /\
  (Forall (@nonempty F) (w_poses w) ->
   snd (script cwd path_join basename splitext cli w) = Exit 0 /\
   saves (fst (script cwd path_join basename splitext cli w)) =
     [(path_join (path_join cwd "result")
         (fst (splitext (basename (cli_image cli))) ++ "_result" ++
          snd (splitext (basename (cli_image cli)))),
       w_image w)]) /\
  (In (empty_pose F) (w_poses w) ->
   snd (script cwd path_join basename splitext cli w) =
     Uncaught ZeroDivisionError /\
   saves (fst (script cwd path_join basename splitext cli w)) = []).
Proof.
  intros Himg. unfold script, single_image, result_dir.
  destruct (cli_image cli) as [|c s] eqn:Ei; [congruence|]. clear Himg.
  destruct (analyze_poses (cli_args cli) (w_poses w)) as [out r] eqn:E.
  assert (Hr : (exists v, r = Ok v /\ Forall (@nonempty F) (w_poses w)) \/
               (r = Raise ZeroDivisionError /\ In (empty_pose F) (w_poses w))).
  { destruct (nonempty_or_empty (w_poses w)) as [H|H].
    - left. destruct (@analyze_poses_returns F L M (cli_args cli) _ H)
        as (out' & v & E'). exists v. split; [congruence | exact H].
    - right. destruct (analyze_poses_stops (cli_args cli) _ H) as (out' & E').
      split; [congruence | exact H]. }
  destruct (splitext (basename (String c s))) as [name ext] eqn:Es.
  destruct Hr as [(v & -> & Hvalid)|[-> Hin]]; cbn [fst snd].
  - cbn [opens renders saves app].
    rewrite !opens_app, !renders_app, !saves_app, opens_lines, renders_lines,
      saves_lines.
    split; [reflexivity|]. split; [reflexivity|]. split.
    + intros _. split; reflexivity.
    + intros Hin. exfalso. rewrite Forall_forall in Hvalid.
      apply (Hvalid _ Hin). reflexivity.
  - cbn [opens renders saves app].
    rewrite opens_lines, renders_lines, saves_lines.
    split; [reflexivity|]. split; [reflexivity|]. split.
    + intros Hvalid. exfalso. rewrite Forall_forall in Hvalid.
      apply (Hvalid _ Hin). reflexivity.
    + intros _. split; reflexivity.
Qed.

End ScriptProperties.

(** ** The script on concrete runs *)

Lemma stream_loop_timeouts_witness :
  stream_loop cli_camera [timeout64 false; timeout64 false] =
    ([EvCapture; EvCapture], Running).
Proof.
  apply (@stream_loop_timeouts binary64 nat cli_camera
           [timeout64 false; timeout64 false] []).
  repeat constructor.
Defined.

Lemma script_exit_1_witness :
  script "/home/user" join64 (fun p => p) splitext64 cli_nothing world64 =
    ([@EvLoadNet binary64 nat "resnet18-body" 0.25%float; EvPrint NoInputError],
     Exit 1).
Proof.
  pose proof (@script_exit_1 binary64 nat "/home/user" join64 (fun p => p)
                splitext64 cli_nothing world64) as [[_ H1] H2].
  rewrite (surjective_pairing (script _ _ _ _ _ _)).
  rewrite (H1 (conj eq_refl eq_refl)), (H2 eq_refl eq_refl). reflexivity.
Defined.

Lemma world64_valid :
  Forall (fun t : tick binary64 nat => Forall (@nonempty binary64) (t_poses t))
    (w_ticks world64).
Proof. repeat constructor; discriminate. Qed.

Lemma stream_loop_renders_witness :
  snd (stream_loop cli_camera (w_ticks world64)) = Exit 0 /\
  renders (fst (stream_loop cli_camera (w_ticks world64))) =
    [(Display, 1); (Recorder, 1); (Display, 2); (Recorder, 2)].
Proof.
  exact (@stream_loop_renders binary64 nat cli_camera
           (binary64_order sqrt_hypot) (binary64_mean sqrt_hypot)
           (w_ticks world64) world64_valid).
Defined.

Lemma stream_loop_empty_pose_witness :
  snd (stream_loop cli_camera
         ([turn64 1 frame64 true] ++
          turn64 2 [person64 0; empty_pose binary64] true ::
          [turn64 3 frame64 false])) = Uncaught ZeroDivisionError /\
  renders (fst (stream_loop cli_camera
         ([turn64 1 frame64 true] ++
          turn64 2 [person64 0; empty_pose binary64] true ::
          [turn64 3 frame64 false]))) = [(Display, 1); (Recorder, 1)].
Proof.
  apply (@stream_loop_empty_pose binary64 nat cli_camera
           (binary64_order sqrt_hypot) (binary64_mean sqrt_hypot)
           [turn64 1 frame64 true]
           (turn64 2 [person64 0; empty_pose binary64] true)
           [turn64 3 frame64 false] 2).
  - repeat constructor; discriminate.
  - reflexivity.
  - reflexivity.
  - right. left. reflexivity.
Defined.

Lemma single_image_mode_witness :
  snd (script "/home/user" join64 (fun p => p) splitext64 cli_picture world64) =
    Exit 0 /\
  saves (fst (script "/home/user" join64 (fun p => p) splitext64 cli_picture
                world64)) =
    [("/home/user/result/people_result"%string, 7)].
Proof.
  apply (@single_image_mode binary64 nat "/home/user" join64 (fun p => p)
           splitext64 cli_picture (binary64_order sqrt_hypot)
           (binary64_mean sqrt_hypot) world64).
  - discriminate.
  - exact (proj2 frame64_nonempty).
Defined.
